(** * Verification of the pyxc benchmark kernels and the chapter06 lit configuration

    Shallow embedding of
    - [code/chapter14/bench/cases/loopsum.py]
    - [code/chapter15/bench/cases/fib39.py]
    - [code/chapter19/bench/cases/primecount.py]
    - [code/chapter21/bench/cases/particles_heavy.py]
    - [code/chapter25/bench/cases/lcg_hash.py]
    - [code/chapter06/test/lit.cfg.py]

    Python [int] is modelled as [Z]; [//] and [%] with a positive divisor are
    [Z.div] and [Z.modulo] (both floor-rounding, as in Python). *)

From Stdlib Require Import ZArith Lia List Bool Ascii String.
From Stdlib Require Import Znumtheory.
Import ListNotations.

Open Scope Z_scope.

(* ------------------------------------------------------------------ *)
(** ** Python built-ins used by the kernels *)

Module Py.

(** [range(a, b)] as a list. *)
Definition range (a b : Z) : list Z :=
  map (fun k => a + Z.of_nat k) (seq 0 (Z.to_nat (b - a))).

(** [float(n)] for a Python [int]: round to the nearest double
    (53-bit significand, ties to even); the result is an integer-valued
    double, given here by the integer it equals.  [None] is the
    [OverflowError] raised when the rounded value does not fit a double. *)
Definition round_nonneg (n : Z) : Z :=
  if n <? 2 ^ 53 then n
  else
    let e := Z.log2 n - 52 in
    let q := n / 2 ^ e in
    let r := n mod 2 ^ e in
    let half := 2 ^ (e - 1) in
    let q' := if (half <? r) || ((r =? half) && Z.odd q) then q + 1 else q in
    q' * 2 ^ e.

Definition float_of_int (n : Z) : option Z :=
  let v := round_nonneg (Z.abs n) in
  if 2 ^ 1024 <=? v then None
  else Some (if n <? 0 then - v else v).

(** Decimal digits of a non-negative integer. *)
Definition digit (d : Z) : ascii := ascii_of_nat (48 + Z.to_nat d).

Fixpoint digits_acc (fuel : nat) (n : Z) (acc : string) : string :=
  match fuel with
  | O => acc
  | S f =>
      let acc' := String (digit (n mod 10)) acc in
      if n <? 10 then acc' else digits_acc f (n / 10) acc'
  end.

Definition digits (n : Z) : string :=
  digits_acc (S (Z.to_nat (Z.log2 n))) n EmptyString.

(** [str(n)] for a Python [int]. *)
Definition str_int (n : Z) : string :=
  if n <? 0 then String "-" (digits (- n)) else digits n.

(** [f"{v:.6f}"] for an integer-valued double [v] (the only doubles the
    kernels format): the integer digits followed by six zero decimals. *)
Definition format_6f (v : Z) : string :=
  str_int v ++ ".000000".

Definition newline : string := String (ascii_of_nat 10) EmptyString.

(** Replace the element at position [k] (no change out of range). *)
Fixpoint set_nth {A} (l : list A) (k : nat) (v : A) : list A :=
  match l, k with
  | [], _ => []
  | _ :: r, O => v :: r
  | a :: r, S k' => a :: set_nth r k' v
  end.

(** Normalise a Python index: negative indices count from the end;
    [None] is the [IndexError] of an index out of range. *)
Definition norm_index {A} (l : list A) (i : Z) : option nat :=
  let n := Z.of_nat (List.length l) in
  if (0 <=? i) && (i <? n) then Some (Z.to_nat i)
  else if (- n <=? i) && (i <? 0) then Some (Z.to_nat (n + i))
  else None.

(** [l[i]]. *)
Definition get {A} (l : list A) (i : Z) : option A :=
  match norm_index l i with
  | Some k => nth_error l k
  | None => None
  end.

(** [l[i] = v]. *)
Definition set {A} (l : list A) (i : Z) (v : A) : option (list A) :=
  match norm_index l i with
  | Some k => Some (set_nth l k v)
  | None => None
  end.

End Py.

(** Sequencing of computations that may raise. *)
Definition obind {A B} (m : option A) (k : A -> option B) : option B :=
  match m with Some a => k a | None => None end.

Notation "x <- m ;; k" := (obind m (fun x => k))
  (at level 61, m at next level, right associativity).

(* ------------------------------------------------------------------ *)
(** ** Console effects of a Python program

    A program is a tree of requests to the outside world; [run] answers
    them from a [world] and records the observable events. *)

Module IO.

Inductive exn := OverflowError | IndexError | RecursionError.

Inductive event :=
| EvStdout (s : string)
| EvStdin
| EvGetEnv (name : string)
| EvOpen (path : string).

Inductive prog :=
| Done
| Raise (e : exn)
| Print (s : string) (k : prog)
| ReadLine (k : string -> prog)
| GetEnv (name : string) (k : option string -> prog)
| Open (path : string) (k : option string -> prog).

Record world := {
  w_stdin : list string;
  w_env : string -> option string;
  w_files : string -> option string
}.

Inductive outcome := Normal | Uncaught (e : exn).

Fixpoint run (w : world) (p : prog) : list event * outcome :=
  match p with
  | Done => ([], Normal)
  | Raise e => ([], Uncaught e)
  | Print s k => let '(evs, o) := run w k in (EvStdout s :: evs, o)
  | ReadLine k =>
      let line := hd EmptyString (w_stdin w) in
      let w' := {| w_stdin := tl (w_stdin w); w_env := w_env w;
                   w_files := w_files w |} in
      let '(evs, o) := run w' (k line) in (EvStdin :: evs, o)
  | GetEnv x k => let '(evs, o) := run w (k (w_env w x)) in (EvGetEnv x :: evs, o)
  | Open f k => let '(evs, o) := run w (k (w_files w f)) in (EvOpen f :: evs, o)
  end.

(** Bytes written to standard output. *)
Fixpoint stdout_of (evs : list event) : string :=
  match evs with
  | [] => EmptyString
  | EvStdout s :: r => s ++ stdout_of r
  | _ :: r => stdout_of r
  end.

(** [print(s)] writes [s] followed by a newline. *)
Definition print (s : string) (k : prog) : prog := Print (s ++ Py.newline) k.

(** [print(f"{float(n):.6f}")]. *)
Definition print_float_6f (n : Z) (k : prog) : prog :=
  match Py.float_of_int n with
  | Some v => print (Py.format_6f v) k
  | None => Raise OverflowError
  end.

(** [print(n)] for an [int]. *)
Definition print_int (n : Z) (k : prog) : prog := print (Py.str_int n) k.

End IO.

(* ------------------------------------------------------------------ *)
(** ** [loopsum.py] *)

Module LoopSum.

(** [loopsum(n, m)]: two nested [for] loops accumulating [i * j]. *)
Definition loopsum (n m : Z) : Z :=
  fold_left
    (fun total i =>
       fold_left (fun total j => total + i * j) (Py.range 1 (m + 1)) total)
    (Py.range 1 (n + 1)) 0.

Definition main : IO.prog := IO.print_float_6f (loopsum 10000 10000) IO.Done.

End LoopSum.

Example loopsum_small : LoopSum.loopsum 3 4 = 60.
Proof. vm_compute. reflexivity. Qed.
Example str_small : Py.format_6f 2500500025000000 = "2500500025000000.000000"%string.
Proof. vm_compute. reflexivity. Qed.
Example float_big : Py.float_of_int (2 ^ 53 + 1) = Some (2 ^ 53).
Proof. vm_compute. reflexivity. Qed.
Example float_big2 : Py.float_of_int (2 ^ 53 + 3) = Some (2 ^ 53 + 4).
Proof. vm_compute. reflexivity. Qed.

(** A world with nothing on standard input, no environment and no files. *)
Definition empty_world : IO.world :=
  {| IO.w_stdin := []; IO.w_env := fun _ => None; IO.w_files := fun _ => None |}.

(* ------------------------------------------------------------------ *)
(** ** Lemmas on [range] and accumulating loops *)

Lemma range_succ_end (a : Z) (k : nat) :
  Py.range a (a + Z.of_nat (S k)) = Py.range a (a + Z.of_nat k) ++ [a + Z.of_nat k].
Proof.
  unfold Py.range.
  replace (Z.to_nat (a + Z.of_nat (S k) - a)) with (S k) by lia.
  replace (Z.to_nat (a + Z.of_nat k - a)) with k by lia.
  rewrite seq_S, map_app. reflexivity.
Qed.

Lemma fold_left_ext_Z (f g : Z -> Z -> Z) (l : list Z) (t : Z) :
  (forall acc x, In x l -> f acc x = g acc x) ->
  fold_left f l t = fold_left g l t.
Proof.
  revert t; induction l as [|x l IH]; intros t H; simpl; [reflexivity|].
  rewrite H by (left; reflexivity). apply IH. intros; apply H; right; assumption.
Qed.

(** Triangular numbers [1 + 2 + ... + k]. *)
Definition tri (k : Z) : Z := k * (k + 1) / 2.

Lemma tri_succ (k : Z) : tri (k + 1) = tri k + (k + 1).
Proof.
  unfold tri.
  replace ((k + 1) * (k + 1 + 1)) with (k * (k + 1) + (k + 1) * 2) by ring.
  rewrite Z.div_add by lia. reflexivity.
Qed.

Lemma fold_scaled_range (c : Z) (k : nat) (t : Z) :
  fold_left (fun acc j => acc + c * j) (Py.range 1 (1 + Z.of_nat k)) t
  = t + c * tri (Z.of_nat k).
Proof.
  revert t; induction k as [|k IH]; intros t.
  - unfold tri; cbn; ring.
  - rewrite range_succ_end, fold_left_app, IH. cbn [fold_left].
    replace (Z.of_nat (S k)) with (Z.of_nat k + 1) by lia.
    rewrite tri_succ. ring.
Qed.

Lemma loopsum_closed (n m : Z) :
  0 <= n -> 0 <= m -> LoopSum.loopsum n m = tri n * tri m.
Proof.
  intros Hn Hm. unfold LoopSum.loopsum.
  rewrite <- (Z2Nat.id n Hn), <- (Z2Nat.id m Hm).
  generalize (Z.to_nat n) (Z.to_nat m); clear n m Hn Hm; intros n m.
  rewrite (fold_left_ext_Z _ (fun acc i => acc + tri (Z.of_nat m) * i)).
  - rewrite Z.add_comm, fold_scaled_range. ring.
  - intros acc i _. rewrite Z.add_comm, fold_scaled_range. ring.
Qed.

Lemma loopsum_10000 : LoopSum.loopsum 10000 10000 = 2500500025000000.
Proof.
  rewrite loopsum_closed by lia. vm_compute. reflexivity.
Qed.

(* ------------------------------------------------------------------ *)
(** ** [fib39.py] *)

Module Fib.

(** [fib(n)]: [1] below [3], otherwise [fib(n - 1) + fib(n - 2)].  The
    recursion is on [Z.to_nat n]: every [n < 3] (negative ones included)
    has [Z.to_nat n < 3]; see [fib_eq] for the source equation. *)
Fixpoint fib_nat (k : nat) : Z :=
  match k with
  | S ((S (S _ as q)) as p) => fib_nat p + fib_nat q
  | _ => 1
  end.

Definition fib (n : Z) : Z := fib_nat (Z.to_nat n).

Definition main : IO.prog := IO.print_float_6f (fib 41) IO.Done.

(** The sequence of the specification: [fib(1) = fib(2) = 1] and
    [fib(n) = fib(n - 1) + fib(n - 2)]; index [0] lies outside it. *)
Fixpoint fib_seq (n : nat) : Z :=
  match n with
  | 0%nat => 0
  | 1%nat => 1
  | 2%nat => 1
  | S ((S m) as p) => fib_seq p + fib_seq m
  end.

(** Consecutive pairs of [fib_seq], computed by iteration. *)
Fixpoint fib_pair (k : nat) : Z * Z :=
  match k with
  | 0%nat => (1, 1)
  | S k' => let '(a, b) := fib_pair k' in (b, a + b)
  end.

End Fib.

Lemma fib_eq (n : Z) :
  Fib.fib n = if n <? 3 then 1 else Fib.fib (n - 1) + Fib.fib (n - 2).
Proof.
  unfold Fib.fib. destruct (Z.ltb_spec n 3).
  - destruct (Z.to_nat n) as [|[|[|k]]] eqn:E; try reflexivity; lia.
  - replace (Z.to_nat n) with (S (S (S (Z.to_nat (n - 3))))) by lia.
    replace (Z.to_nat (n - 1)) with (S (S (Z.to_nat (n - 3)))) by lia.
    replace (Z.to_nat (n - 2)) with (S (Z.to_nat (n - 3))) by lia.
    reflexivity.
Qed.

Lemma fib_nat_seq (k : nat) :
  Fib.fib_nat (S k) = Fib.fib_seq (S k) /\
  Fib.fib_nat (S (S k)) = Fib.fib_seq (S (S k)).
Proof.
  induction k as [|k [IH1 IH2]]; [split; reflexivity|].
  split; [exact IH2|].
  change (Fib.fib_nat (S (S k)) + Fib.fib_nat (S k)
          = Fib.fib_seq (S (S k)) + Fib.fib_seq (S k)).
  rewrite IH1, IH2. reflexivity.
Qed.

Lemma fib_pair_seq (k : nat) :
  Fib.fib_pair k = (Fib.fib_seq (S k), Fib.fib_seq (S (S k))).
Proof.
  induction k as [|k IH]; [reflexivity|].
  cbn [Fib.fib_pair]. rewrite IH. f_equal.
  change (Fib.fib_seq (S (S (S k))))
    with (Fib.fib_seq (S (S k)) + Fib.fib_seq (S k)).
  ring.
Qed.

Lemma fib_seq_41 : Fib.fib_seq 41 = 165580141.
Proof.
  change 41%nat with (S 40).
  replace (Fib.fib_seq (S 40)) with (fst (Fib.fib_pair 40))
    by (rewrite fib_pair_seq; reflexivity).
  vm_compute. reflexivity.
Qed.

Lemma fib_41 : Fib.fib 41 = 165580141.
Proof.
  unfold Fib.fib. change (Z.to_nat 41) with (S 40).
  rewrite (proj1 (fib_nat_seq 40)). exact fib_seq_41.
Qed.

(* ------------------------------------------------------------------ *)
(** ** [primecount.py]

    The three recursive functions take a recursion budget [fuel]: every
    recursive call consumes one unit and [None] stands for running out of
    it (Python's [RecursionError]); [divisible n d] does not terminate at
    all for [d <= 0 < n]. *)

Module Primes.

Fixpoint divisible (fuel : nat) (n d : Z) : option bool :=
  match fuel with
  | O => None
  | S f =>
      if n <? d then Some false
      else if n <? d + 1 then Some true
      else divisible f (n - d) d
  end.

Fixpoint is_prime_from (fuel : nat) (n d : Z) : option bool :=
  match fuel with
  | O => None
  | S f =>
      if n <? d * d then Some true
      else
        match divisible f n d with
        | Some true => Some false
        | Some false => is_prime_from f n (d + 1)
        | None => None
        end
  end.

Definition is_prime (fuel : nat) (n : Z) : option bool :=
  if n <? 2 then Some false else is_prime_from fuel n 2.

(** One iteration of the [for] loop of [count_primes]. *)
Definition count_step (fuel : nat) (acc : option Z) (n : Z) : option Z :=
  match acc with
  | None => None
  | Some count =>
      match is_prime fuel n with
      | Some true => Some (count + 1)
      | Some false => Some count
      | None => None
      end
  end.

Definition count_primes (fuel : nat) (limit : Z) : option Z :=
  fold_left (count_step fuel) (Py.range 2 (limit + 1)) (Some 0).

(** The loop of [main]: [total += count_primes(1900)], ten times. *)
Definition main_step (fuel : nat) (acc : option Z) (_ : Z) : option Z :=
  match acc with
  | None => None
  | Some total =>
      match count_primes fuel 1900 with
      | Some c => Some (total + c)
      | None => None
      end
  end.

Definition main_total (fuel : nat) : option Z :=
  fold_left (main_step fuel) (Py.range 0 10) (Some 0).

Definition main_with (fuel : nat) : IO.prog :=
  match main_total fuel with
  | Some total => IO.print_float_6f total IO.Done
  | None => IO.Raise IO.RecursionError
  end.

(** The recursion budget of a run: CPython's default recursion limit. *)
Definition recursion_limit : nat := 1000.

Definition main : IO.prog := main_with recursion_limit.

(** The count of the specification: primes in [[2, limit]]. *)
Definition prime_b (n : Z) : bool := if prime_dec n then true else false.

Definition prime_count (limit : Z) : Z :=
  Z.of_nat (List.length (filter prime_b (Py.range 2 (limit + 1)))).

End Primes.

Example divisible_small : Primes.divisible 10 12 4 = Some true.
Proof. vm_compute. reflexivity. Qed.
Example is_prime_small : map (Primes.is_prime 100) [1; 2; 9; 13; 25] =
  [Some false; Some true; Some false; Some true; Some false].
Proof. vm_compute. reflexivity. Qed.

(* ------------------------------------------------------------------ *)
(** ** Trial division decides primality *)

Lemma divisible_spec (f : nat) (n d : Z) (b : bool) :
  1 <= d -> 1 <= n -> Primes.divisible f n d = Some b -> b = (n mod d =? 0).
Proof.
  revert n; induction f as [|f IH]; intros n Hd Hn H; cbn in H; [discriminate|].
  destruct (Z.ltb_spec n d).
  - injection H as <-. rewrite Z.mod_small by lia.
    symmetry; apply Z.eqb_neq; lia.
  - destruct (Z.ltb_spec n (d + 1)).
    + injection H as <-. replace n with d by lia.
      rewrite Z.mod_same by lia. reflexivity.
    + apply IH in H; [|lia|lia]. rewrite H.
      replace n with ((n - d) + 1 * d) at 2 by ring.
      rewrite Z.mod_add by lia. reflexivity.
Qed.

Lemma no_small_divisor_prime (n d : Z) :
  2 <= d -> 2 <= n -> n < d * d ->
  (forall k, 2 <= k < d -> ~ (k | n)) -> Z.prime n.
Proof.
  intros Hd Hn Hsq Hnd. split; [lia|].
  intros k Hk [m Hm].
  assert (Hm2 : 2 <= m) by nia.
  destruct (Z_lt_le_dec k d) as [Hkd|Hkd].
  - apply (Hnd k); [lia | exists m; exact Hm].
  - destruct (Z_lt_le_dec m d) as [Hmd|Hmd].
    + apply (Hnd m); [lia | exists k; lia].
    + nia.
Qed.

Lemma is_prime_from_spec (f : nat) :
  forall n d b, 2 <= d -> 2 <= n -> (forall k, 2 <= k < d -> ~ (k | n)) ->
  Primes.is_prime_from f n d = Some b -> (b = true <-> Z.prime n).
Proof.
  induction f as [|f IH]; intros n d b Hd Hn Hnd H; cbn in H; [discriminate|].
  destruct (Z.ltb_spec n (d * d)) as [Hsq|Hsq].
  - injection H as <-. split; [intros _|reflexivity].
    exact (no_small_divisor_prime n d Hd Hn Hsq Hnd).
  - destruct (Primes.divisible f n d) as [[|]|] eqn:E; try discriminate.
    + injection H as <-. apply divisible_spec in E; [|lia|lia].
      symmetry in E; apply Z.eqb_eq in E.
      split; [discriminate|]. intros [_ Hall]. exfalso.
      apply (Hall d); [nia|]. apply Z.mod_divide; lia.
    + apply (IH n (d + 1)); [lia|lia| |exact H].
      intros k Hk Hdiv. destruct (Z.eq_dec k d) as [->|Hne].
      * apply divisible_spec in E; [|lia|lia].
        apply Z.mod_divide in Hdiv; [|lia]. rewrite Hdiv in E. discriminate.
      * apply (Hnd k); [lia|exact Hdiv].
Qed.

Lemma is_prime_spec (f : nat) (n : Z) (b : bool) :
  Primes.is_prime f n = Some b -> (b = true <-> Z.prime n).
Proof.
  unfold Primes.is_prime. destruct (Z.ltb_spec n 2) as [Hlt|Hge].
  - intros H; injection H as <-. split; [discriminate|]. intros [Hp _]; lia.
  - apply is_prime_from_spec; [lia|lia|]. intros k Hk; lia.
Qed.

Lemma prime_b_spec (n : Z) : Primes.prime_b n = true <-> Z.prime n.
Proof.
  unfold Primes.prime_b. rewrite prime_alt.
  destruct (prime_dec n); split; intros; tauto || discriminate.
Qed.

Lemma is_prime_prime_b (f : nat) (n : Z) (b : bool) :
  Primes.is_prime f n = Some b -> b = Primes.prime_b n.
Proof.
  intros H. apply is_prime_spec in H.
  destruct b, (Primes.prime_b n) eqn:E; try reflexivity.
  - assert (Hp : Z.prime n) by (apply H; reflexivity).
    apply prime_b_spec in Hp. congruence.
  - apply prime_b_spec in E. apply H in E. discriminate.
Qed.

Lemma count_fold_none (f : nat) (l : list Z) :
  fold_left (Primes.count_step f) l None = None.
Proof. induction l; [reflexivity|exact IHl]. Qed.

Lemma count_step_some (f : nat) (c0 x : Z) :
  Primes.count_step f (Some c0) x
  = option_map (fun b : bool => if b then c0 + 1 else c0) (Primes.is_prime f x).
Proof.
  unfold Primes.count_step. destruct (Primes.is_prime f x) as [[|]|]; reflexivity.
Qed.

Lemma count_fold_spec (f : nat) (l : list Z) :
  forall c0 c, fold_left (Primes.count_step f) l (Some c0) = Some c ->
  c = c0 + Z.of_nat (List.length (filter Primes.prime_b l)).
Proof.
  induction l as [|x l IH]; intros c0 c H; cbn [fold_left filter] in H |- *.
  - injection H as <-. cbn. ring.
  - rewrite count_step_some in H.
    destruct (Primes.is_prime f x) as [b|] eqn:E;
      [|rewrite count_fold_none in H; discriminate].
    apply is_prime_prime_b in E. subst b.
    destruct (Primes.prime_b x); apply IH in H; rewrite H;
      cbn [List.length]; lia.
Qed.

Lemma count_primes_spec (f : nat) (limit c : Z) :
  Primes.count_primes f limit = Some c -> c = Primes.prime_count limit.
Proof. intros H. apply count_fold_spec in H. rewrite H. reflexivity. Qed.

Lemma main_fold (f : nat) (c : Z) (l : list Z) :
  Primes.count_primes f 1900 = Some c ->
  forall t, fold_left (Primes.main_step f) l (Some t)
            = Some (t + Z.of_nat (List.length l) * c).
Proof.
  intros Hc. induction l as [|x l IH]; intros t; cbn [fold_left List.length].
  - f_equal; ring.
  - replace (Primes.main_step f (Some t) x) with (Some (t + c))
      by (unfold Primes.main_step; rewrite Hc; reflexivity).
    rewrite IH. f_equal; lia.
Qed.

Lemma count_primes_1900 : Primes.count_primes Primes.recursion_limit 1900 = Some 290.
Proof. vm_compute. reflexivity. Qed.

(* ------------------------------------------------------------------ *)
(** ** Termination of the trial division *)

Lemma in_range (a b x : Z) : In x (Py.range a b) -> a <= x < b.
Proof.
  unfold Py.range. rewrite in_map_iff. intros [k [<- Hk]].
  apply in_seq in Hk. lia.
Qed.

Lemma divisible_terminates (f : nat) (n d : Z) :
  1 <= d -> Z.max 0 n < Z.of_nat f -> exists b, Primes.divisible f n d = Some b.
Proof.
  revert n; induction f as [|f IH]; intros n Hd Hf; cbn; [lia|].
  destruct (Z.ltb_spec n d); [eauto|]. destruct (Z.ltb_spec n (d + 1)); [eauto|].
  apply IH; lia.
Qed.

Lemma is_prime_from_terminates (f : nat) (n d : Z) :
  1 <= d -> Z.max 0 (2 * n + 2 - d) < Z.of_nat f ->
  exists b, Primes.is_prime_from f n d = Some b.
Proof.
  revert d; induction f as [|f IH]; intros d Hd Hf; cbn; [lia|].
  destruct (Z.ltb_spec n (d * d)) as [Hsq|Hsq]; [eauto|].
  assert (d <= n) by nia. rewrite Nat2Z.inj_succ in Hf.
  destruct (divisible_terminates f n d Hd) as [[|] E]; [lia| |]; rewrite E.
  - eauto.
  - apply IH; lia.
Qed.

Lemma is_prime_terminates (n : Z) (f : nat) :
  2 * n < Z.of_nat f -> exists b, Primes.is_prime f n = Some b.
Proof.
  intros Hf. unfold Primes.is_prime. destruct (Z.ltb_spec n 2); [eauto|].
  apply is_prime_from_terminates; lia.
Qed.

Lemma count_fold_terminates (f : nat) (l : list Z) :
  (forall x, In x l -> exists b, Primes.is_prime f x = Some b) ->
  forall c0, exists c, fold_left (Primes.count_step f) l (Some c0) = Some c.
Proof.
  induction l as [|x l IH]; intros Hl c0; cbn [fold_left]; [eauto|].
  rewrite count_step_some.
  destruct (Hl x (or_introl Logic.eq_refl)) as [b E]; rewrite E; cbn.
  apply IH. intros y Hy; apply Hl; right; exact Hy.
Qed.

Lemma count_primes_terminates (limit : Z) :
  exists c, Primes.count_primes (S (Z.to_nat (2 * limit))) limit = Some c.
Proof.
  apply count_fold_terminates. intros x Hx. apply in_range in Hx.
  apply is_prime_terminates. lia.
Qed.

(* ------------------------------------------------------------------ *)
(** ** [lcg_hash.py] *)

Module Lcg.

Definition N : Z := 200000000.
Definition MODV : Z := 2147483647.

(** One iteration of the [while i < N] loop on [(x, acc)]; [i] takes the
    values [0, 1, ..., N - 1] in turn, as in [range(N)]. *)
Definition step (s : Z * Z) (i : Z) : Z * Z :=
  let '(x, acc) := s in
  let x' := (x * 48271) mod MODV in
  (x', (acc + x' + i) mod MODV).

Definition final_acc : Z := snd (fold_left step (Py.range 0 N) (1234567, 0)).

Definition main : IO.prog := IO.print_int final_acc IO.Done.

End Lcg.

(** The state after [k] iterations, in closed form: [x] is [x0 * 48271^k]
    reduced once, and [acc] is the sum of the [x + i] terms reduced once. *)
Definition lcg_x_after (x0 k : Z) : Z := (x0 * 48271 ^ k) mod Lcg.MODV.

Definition lcg_acc_sum (x0 k : Z) : Z :=
  fold_left (fun s j => s + lcg_x_after x0 (j + 1) + j) (Py.range 0 k) 0.

(* ------------------------------------------------------------------ *)
(** ** [particles_heavy.py] *)

Module Particles.

Definition MODV : Z := 1000000007.
Definition N : Z := 80000.
Definition STEPS : Z := 800.

Record Vec2 := { x : Z; y : Z }.

Record Particle := { id : Z; pos : Vec2; vel : Vec2; bins : list Z }.

(** [Particle(pid)]: fresh [Vec2] objects and a fresh [bins] list, so no
    two particles share mutable state. *)
Definition new_particle (pid : Z) : Particle :=
  {| id := pid;
     pos := {| x := pid; y := pid * 2 |};
     vel := {| x := 1 + pid; y := 2 - pid |};
     bins := [pid + 0; pid + 1; pid + 2; pid + 3] |}.

Definition initial : list Particle := map new_particle (Py.range 0 N).

(** The body of the inner [while i < N] loop; [p] is [ps[i]], and the
    mutations through [p] are written back at index [i]. *)
Definition update (step : Z) (ps : list Particle) (i : Z) : option (list Particle) :=
  p <- Py.get ps i ;;
  let pos' := {| x := x (pos p) + x (vel p); y := y (pos p) + y (vel p) |} in
  let slot := step mod 4 in
  b <- Py.get (bins p) slot ;;
  bins' <- Py.set (bins p) slot (b + i + step) ;;
  Py.set ps i {| id := id p; pos := pos'; vel := vel p; bins := bins' |}.

Definition inner (step : Z) (ops : option (list Particle)) (i : Z) :=
  ps <- ops ;; update step ps i.

Definition outer (ops : option (list Particle)) (step : Z) :=
  ps <- ops ;; fold_left (inner step) (Py.range 0 N) (Some ps).

Definition simulate : option (list Particle) :=
  fold_left outer (Py.range 0 STEPS) (Some initial).

(** One iteration of the checksum loop. *)
Definition check (ps : list Particle) (oc : option Z) (i : Z) : option Z :=
  checksum <- oc ;;
  p <- Py.get ps i ;;
  b0 <- Py.get (bins p) 0 ;;
  b1 <- Py.get (bins p) 1 ;;
  b2 <- Py.get (bins p) 2 ;;
  b3 <- Py.get (bins p) 3 ;;
  Some ((checksum + x (pos p) + y (pos p) + b0 + b1 + b2 + b3) mod MODV).

Definition checksum_of (ps : list Particle) : option Z :=
  fold_left (check ps) (Py.range 0 N) (Some 0).

Definition result : option Z := ps <- simulate ;; checksum_of ps.

Definition main_of (r : option Z) : IO.prog :=
  match r with
  | Some c => IO.print_int c IO.Done
  | None => IO.Raise IO.IndexError
  end.

Definition main : IO.prog := main_of result.

End Particles.

(** The state of particle [i] after [s] full steps, in closed form: each
    step adds [vel] to [pos] once, and [bins[k]] has received [i + t] for
    every step [t < s] with [t % 4 = k]. *)
Definition bin_total (s i k : Z) : Z :=
  fold_left (fun b t => if t mod 4 =? k then b + (i + t) else b) (Py.range 0 s) 0.

Definition particle_after (s i : Z) : Particles.Particle :=
  {| Particles.id := i;
     Particles.pos := {| Particles.x := i + s * (1 + i); Particles.y := i * 2 + s * (2 - i) |};
     Particles.vel := {| Particles.x := 1 + i; Particles.y := 2 - i |};
     Particles.bins := [i + 0 + bin_total s i 0; i + 1 + bin_total s i 1;
                        i + 2 + bin_total s i 2; i + 3 + bin_total s i 3] |}.

(** What one particle adds to the checksum, and the unreduced total. *)
Definition score (p : Particles.Particle) : Z :=
  Particles.x (Particles.pos p) + Particles.y (Particles.pos p)
  + nth 0 (Particles.bins p) 0 + nth 1 (Particles.bins p) 0
  + nth 2 (Particles.bins p) 0 + nth 3 (Particles.bins p) 0.

Definition particles_sum (ps : list Particles.Particle) : Z :=
  fold_left (fun c p => c + score p) ps 0.

(** Particles [0 .. k-1] have done step [s], the others not yet. *)
Definition stage (s k : Z) : list Particles.Particle :=
  map (fun j => if j <? k then particle_after (s + 1) j else particle_after s j)
      (Py.range 0 Particles.N).

(* ------------------------------------------------------------------ *)
(** ** Python list indexing within bounds *)

Lemma norm_index_in {A} (l : list A) (i : Z) :
  0 <= i < Z.of_nat (List.length l) -> Py.norm_index l i = Some (Z.to_nat i).
Proof.
  intros Hi. unfold Py.norm_index.
  replace ((0 <=? i) && (i <? Z.of_nat (List.length l))) with true; [reflexivity|].
  symmetry; apply andb_true_iff; split; [apply Z.leb_le|apply Z.ltb_lt]; lia.
Qed.

Lemma get_in {A} (l : list A) (i : Z) :
  0 <= i < Z.of_nat (List.length l) -> exists v, Py.get l i = Some v /\ In v l.
Proof.
  intros Hi. unfold Py.get. rewrite norm_index_in by exact Hi.
  destruct (nth_error l (Z.to_nat i)) as [v|] eqn:E.
  - exists v; split; [reflexivity|]. eapply nth_error_In; exact E.
  - apply nth_error_None in E. lia.
Qed.

Lemma set_in {A} (l : list A) (i : Z) (v : A) :
  0 <= i < Z.of_nat (List.length l) -> Py.set l i v = Some (Py.set_nth l (Z.to_nat i) v).
Proof. intros Hi. unfold Py.set. rewrite norm_index_in by exact Hi. reflexivity. Qed.

Lemma set_nth_length {A} (l : list A) (k : nat) (v : A) :
  List.length (Py.set_nth l k v) = List.length l.
Proof.
  revert k; induction l as [|a l IH]; intros [|k]; cbn; try rewrite IH; reflexivity.
Qed.

Lemma set_nth_Forall {A} (P : A -> Prop) (l : list A) (k : nat) (v : A) :
  P v -> Forall P l -> Forall P (Py.set_nth l k v).
Proof.
  intros Hv Hl; revert k; induction Hl as [|a l Ha Hl IH]; intros [|k]; cbn;
    constructor; auto.
Qed.

(* ------------------------------------------------------------------ *)
(** ** The checksum kernels stay below their moduli *)

Lemma fold_left_step {A B} (f : A -> B -> A) (x : B) (l : list B) (a : A) :
  fold_left f (x :: l) a = fold_left f l (f a x).
Proof. reflexivity. Qed.

Lemma obind_some {A B} (a : A) (k : A -> option B) : obind (Some a) k = k a.
Proof. reflexivity. Qed.

Lemma lcg_fold_bound (l : list Z) :
  forall x acc, 0 <= acc < Lcg.MODV ->
  0 <= snd (fold_left Lcg.step l (x, acc)) < Lcg.MODV.
Proof.
  induction l as [|i l IH]; intros x acc Hacc; cbn [fold_left]; [exact Hacc|].
  apply IH. apply Z.mod_pos_bound. unfold Lcg.MODV; lia.
Qed.

Lemma lcg_final_acc_bound : 0 <= Lcg.final_acc < Lcg.MODV.
Proof. apply lcg_fold_bound. unfold Lcg.MODV; lia. Qed.

Section ParticleInvariant.

Import Particles.

(** Shape of the particle array: [N] particles with four bins each. *)
Definition well_shaped (ps : list Particle) : Prop :=
  List.length ps = Z.to_nat N /\ Forall (fun p => List.length (bins p) = 4%nat) ps.

Lemma initial_well_shaped : well_shaped initial.
Proof.
  unfold well_shaped, initial. split.
  - rewrite length_map. unfold Py.range. rewrite length_map, length_seq. reflexivity.
  - apply Forall_forall. intros p Hp. apply in_map_iff in Hp.
    destruct Hp as [pid [<- _]]. reflexivity.
Qed.

Lemma update_ok (step : Z) (ps : list Particle) (i : Z) :
  well_shaped ps -> 0 <= i < N ->
  exists ps', update step ps i = Some ps' /\ well_shaped ps'.
Proof.
  intros [Hlen Hb] Hi.
  assert (Hi' : 0 <= i < Z.of_nat (List.length ps)) by (rewrite Hlen; unfold N in *; lia).
  destruct (get_in ps i Hi') as [p [Hp Hin]].
  pose proof (proj1 (Forall_forall _ _) Hb p Hin) as Hp4. cbn beta in Hp4.
  assert (Hs : 0 <= step mod 4 < Z.of_nat (List.length (bins p)))
    by (rewrite Hp4; apply Z.mod_pos_bound; lia).
  destruct (get_in (bins p) (step mod 4) Hs) as [b [Hgb _]].
  unfold update. rewrite Hp. cbn [obind]. rewrite Hgb. cbn [obind].
  rewrite set_in by exact Hs. cbn [obind]. rewrite set_in by exact Hi'.
  eexists; split; [reflexivity|]. split.
  - rewrite set_nth_length. exact Hlen.
  - apply set_nth_Forall; [cbn; rewrite set_nth_length; exact Hp4|exact Hb].
Qed.

Lemma inner_ok (step : Z) (l : list Z) :
  (forall i, In i l -> 0 <= i < N) ->
  forall ps, well_shaped ps ->
  exists ps', fold_left (inner step) l (Some ps) = Some ps' /\ well_shaped ps'.
Proof.
  induction l as [|i l IH]; intros Hl ps Hps; cbn [fold_left]; [eauto|].
  destruct (update_ok step ps i Hps (Hl i (or_introl Logic.eq_refl))) as [ps1 [E H1]].
  unfold inner at 2. cbn [obind]. rewrite E.
  apply IH; [intros j Hj; apply Hl; right; exact Hj|exact H1].
Qed.

Lemma outer_some (ps : list Particle) (s : Z) :
  outer (Some ps) s = fold_left (inner s) (Py.range 0 N) (Some ps).
Proof. reflexivity. Qed.

Lemma outer_ok (l : list Z) :
  forall ps, well_shaped ps ->
  exists ps', fold_left outer l (Some ps) = Some ps' /\ well_shaped ps'.
Proof.
  induction l as [|s l IH]; intros ps Hps.
  { exists ps; split; [reflexivity|exact Hps]. }
  rewrite fold_left_step, (outer_some ps s).
  destruct (inner_ok s (Py.range 0 N) (fun i Hi => in_range 0 N i Hi) ps Hps)
    as [ps1 [E H1]].
  rewrite E. apply IH; exact H1.
Qed.

Lemma check_ok (ps : list Particle) (l : list Z) :
  well_shaped ps -> (forall i, In i l -> 0 <= i < N) ->
  forall c0, 0 <= c0 < MODV ->
  exists c, fold_left (check ps) l (Some c0) = Some c /\ 0 <= c < MODV.
Proof.
  intros [Hlen Hb]. induction l as [|i l IH]; intros Hl c0 Hc0; cbn [fold_left]; [eauto|].
  assert (Hi' : 0 <= i < Z.of_nat (List.length ps))
    by (rewrite Hlen; pose proof (Hl i (or_introl Logic.eq_refl)); unfold N in *; lia).
  destruct (get_in ps i Hi') as [p [Hp Hin]].
  pose proof (proj1 (Forall_forall _ _) Hb p Hin) as Hp4. cbn beta in Hp4.
  assert (Hk : forall k, 0 <= k < 4 -> exists v, Py.get (bins p) k = Some v)
    by (intros k Hk; destruct (get_in (bins p) k) as [v [Hv _]];
        [rewrite Hp4; lia|eauto]).
  destruct (Hk 0 ltac:(lia)) as [b0 E0], (Hk 1 ltac:(lia)) as [b1 E1],
    (Hk 2 ltac:(lia)) as [b2 E2], (Hk 3 ltac:(lia)) as [b3 E3].
  unfold check at 2. cbn [obind]. rewrite Hp. cbn [obind].
  rewrite E0, E1, E2, E3. cbn [obind].
  apply IH; [intros j Hj; apply Hl; right; exact Hj|].
  apply Z.mod_pos_bound. unfold MODV; lia.
Qed.

Lemma result_ok : exists c, result = Some c /\ 0 <= c < MODV.
Proof.
  destruct (outer_ok (Py.range 0 STEPS) initial initial_well_shaped) as [ps [E H]].
  change result with (obind simulate checksum_of).
  change simulate with (fold_left outer (Py.range 0 STEPS) (Some initial)).
  rewrite E, obind_some. unfold checksum_of.
  apply check_ok; [exact H|exact (in_range 0 N)|unfold MODV; lia].
Qed.

End ParticleInvariant.

(* ------------------------------------------------------------------ *)
(** ** [os.path] on POSIX ([posixpath]) *)

Module PosixPath.

Local Open Scope string_scope.

Definition slash : ascii := "/"%char.

Definition is_slash (c : ascii) : bool := Ascii.eqb c slash.

Definition startswith_slash (s : string) : bool :=
  match s with String c _ => is_slash c | EmptyString => false end.

Fixpoint endswith_slash (s : string) : bool :=
  match s with
  | EmptyString => false
  | String c EmptyString => is_slash c
  | String _ r => endswith_slash r
  end.

Fixpoint no_slash (s : string) : bool :=
  match s with
  | EmptyString => true
  | String c r => negb (is_slash c) && no_slash r
  end.

Fixpoint all_slashes (s : string) : bool :=
  match s with
  | EmptyString => true
  | String c r => is_slash c && all_slashes r
  end.

(** [s.split("/")]. *)
Fixpoint split (s : string) : list string :=
  match s with
  | EmptyString => [EmptyString]
  | String c r =>
      let parts := split r in
      if is_slash c then EmptyString :: parts
      else match parts with
           | p :: ps => String c p :: ps
           | [] => [String c EmptyString]
           end
  end.

(** [p[:p.rfind("/") + 1]]. *)
Fixpoint upto_last_slash (s : string) : string :=
  match s with
  | EmptyString => EmptyString
  | String c r =>
      let h := upto_last_slash r in
      if String.eqb h EmptyString
      then (if is_slash c then String c EmptyString else EmptyString)
      else String c h
  end.

(** [s.rstrip("/")]. *)
Fixpoint rstrip_slash (s : string) : string :=
  match s with
  | EmptyString => EmptyString
  | String c r =>
      let r' := rstrip_slash r in
      if String.eqb r' EmptyString && is_slash c then EmptyString else String c r'
  end.

(** [posixpath.dirname]. *)
Definition dirname (p : string) : string :=
  let head := upto_last_slash p in
  if negb (String.eqb head EmptyString) && negb (all_slashes head)
  then rstrip_slash head else head.

(** [posixpath.join(a, b)] for one component. *)
Definition join2 (a b : string) : string :=
  if startswith_slash b then b
  else if String.eqb a EmptyString || endswith_slash a then a ++ b
  else a ++ String slash b.

(** [posixpath.join(a, *p)]. *)
Definition join (a : string) (p : list string) : string := fold_left join2 p a.

(** The leading slashes [normpath] keeps: two exactly when the path starts
    with two but not three. *)
Definition initial_slashes (p : string) : nat :=
  if startswith_slash p then
    let r := substring 1 (String.length p) p in
    if startswith_slash r && negb (startswith_slash (substring 1 (String.length r) r))
    then 2 else 1
  else 0.

(** One iteration of the component loop of [normpath]; [stack] is
    [new_comps] with its last element first. *)
Definition normpath_step (initial : nat) (stack : list string) (comp : string)
    : list string :=
  if String.eqb comp EmptyString || String.eqb comp "." then stack
  else if negb (String.eqb comp "..")
          || (Nat.eqb initial 0 && match stack with [] => true | _ => false end)
          || match stack with top :: _ => String.eqb top ".." | [] => false end
  then comp :: stack
  else match stack with [] => [] | _ :: r => r end.

Fixpoint slashes (n : nat) : string :=
  match n with O => EmptyString | S k => String slash (slashes k) end.

(** [posixpath.normpath]. *)
Definition normpath (p : string) : string :=
  if String.eqb p EmptyString then "."
  else
    let initial := initial_slashes p in
    let comps := rev (fold_left (normpath_step initial) (split p) []) in
    let path := slashes initial ++ String.concat "/" comps in
    if String.eqb path EmptyString then "." else path.

Definition isabs (p : string) : bool := startswith_slash p.

(** [posixpath.abspath], in the working directory [cwd]. *)
Definition abspath (cwd p : string) : string :=
  normpath (if isabs p then p else join cwd [p]).

End PosixPath.

Example dirname_ex : PosixPath.dirname "/a/b/lit.cfg.py" = "/a/b"%string.
Proof. reflexivity. Qed.
Example dirname_ex2 : PosixPath.dirname "/lit.cfg.py" = "/"%string.
Proof. reflexivity. Qed.
Example normpath_ex : PosixPath.normpath "/a/b/../c/./d/.." = "/a/c"%string.
Proof. reflexivity. Qed.
Example normpath_ex2 : PosixPath.normpath "//a/.." = "//"%string.
Proof. reflexivity. Qed.
Example normpath_ex3 : PosixPath.normpath "../x/../.." = "../.."%string.
Proof. reflexivity. Qed.
Example join_ex : PosixPath.join "/a" ["b/"; "c"; "/d"; "e"]%string = "/d/e"%string.
Proof. reflexivity. Qed.

(* ------------------------------------------------------------------ *)
(** ** [chapter06/test/lit.cfg.py] *)

Module LitCfg.

Local Open Scope string_scope.

Inductive test_format := ShTest (execute_external : bool).

Record config := {
  name : string;
  format : option test_format;
  suffixes : list string;
  test_source_root : option string;
  test_exec_root : option string;
  substitutions : list (string * string)
}.

(** The configuration lit hands to a test suite's root [lit.cfg.py]
    ([TestingConfig.fromdefaults]): no suffixes, no roots, no
    substitutions. *)
Definition lit_default : config :=
  {| name := "<unnamed>"; format := None; suffixes := [];
     test_source_root := None; test_exec_root := None; substitutions := [] |}.

(** Executing [lit.cfg.py], with [__file__ = file], in the working
    directory [cwd]. *)
Definition load (cwd file : string) (config : config) : LitCfg.config :=
  let name := "pyxc-chapter06" in
  let format := Some (ShTest true) in
  let suffixes := [".pyxc"] in
  let test_source_root := PosixPath.dirname file in
  let test_exec_root := test_source_root in
  let chapter_dir :=
    PosixPath.abspath cwd (PosixPath.join test_source_root [".."]) in
  let substitutions :=
    (substitutions config
      ++ [("%pyxc", PosixPath.join chapter_dir ["build"; "pyxc"])])%list in
  {| name := name; format := format; suffixes := suffixes;
     test_source_root := Some test_source_root;
     test_exec_root := Some test_exec_root;
     substitutions := substitutions |}.

(** The absolute path [/c1/c2/.../ck]. *)
Definition abs_path (comps : list string) : string := String "/" (String.concat "/" comps).

(** A path component other than [""], ["."] and [".."], without a slash. *)
Definition valid_comp (c : string) : bool :=
  negb (String.eqb c "") && negb (String.eqb c ".") && negb (String.eqb c "..")
  && PosixPath.no_slash c.

End LitCfg.

Example lit_load_ex :
  LitCfg.substitutions
    (LitCfg.load "/tmp" "/root/pyxc/code/chapter06/test/lit.cfg.py" LitCfg.lit_default)
  = [("%pyxc", "/root/pyxc/code/chapter06/build/pyxc")]%string.
Proof. reflexivity. Qed.

(* ------------------------------------------------------------------ *)
(** ** Facts about [posixpath] on absolute paths *)

Section PathFacts.

Import PosixPath.
Local Open Scope string_scope.
Local Arguments is_slash : simpl never.

Lemma is_slash_slash : is_slash "/"%char = true.
Proof. reflexivity. Qed.

Lemma str_append_assoc (a b c : string) : (a ++ b) ++ c = a ++ (b ++ c).
Proof. induction a as [|x a IH]; cbn; [reflexivity|]. rewrite IH; reflexivity. Qed.

Lemma str_append_nil (a : string) : a ++ "" = a.
Proof. induction a as [|x a IH]; cbn; [reflexivity|]. rewrite IH; reflexivity. Qed.

Lemma split_no_slash (s : string) : no_slash s = true -> split s = [s].
Proof.
  induction s as [|c r IH]; cbn; [reflexivity|].
  intros H; apply andb_true_iff in H as [Hc Hr]. apply negb_true_iff in Hc.
  rewrite IH, Hc by exact Hr. reflexivity.
Qed.

Lemma split_app_slash (x s : string) :
  no_slash x = true -> split (x ++ String "/" s) = x :: split s.
Proof.
  induction x as [|c r IH]; intros H; cbn.
  - rewrite is_slash_slash. reflexivity.
  - apply andb_true_iff in H as [Hc Hr]. apply negb_true_iff in Hc.
    rewrite IH, Hc by exact Hr. reflexivity.
Qed.

Lemma concat_cons2 (x y : string) (L : list string) :
  String.concat "/" (x :: y :: L) = x ++ String "/" (String.concat "/" (y :: L)).
Proof. reflexivity. Qed.

Lemma split_concat (L : list string) :
  L <> [] -> Forall (fun c => no_slash c = true) L ->
  split (String.concat "/" L) = L.
Proof.
  induction L as [|x L IH]; intros Hne HL; [congruence|].
  inversion HL as [|? ? Hx HL']; subst.
  destruct L as [|y L].
  - apply split_no_slash; exact Hx.
  - rewrite concat_cons2, split_app_slash by exact Hx.
    rewrite IH by (discriminate || exact HL'). reflexivity.
Qed.

Lemma concat_snoc (L : list string) (c : string) :
  L <> [] ->
  String.concat "/" (L ++ [c])%list = String.concat "/" L ++ String "/" c.
Proof.
  induction L as [|x L IH]; intros Hne; [congruence|].
  destruct L as [|y L]; [reflexivity|].
  change ((x :: y :: L) ++ [c])%list with (x :: y :: (L ++ [c]))%list.
  rewrite !concat_cons2.
  change (y :: (L ++ [c]))%list with ((y :: L) ++ [c])%list.
  rewrite IH by discriminate. rewrite str_append_assoc. reflexivity.
Qed.

Lemma endswith_slash_cons (a : ascii) (s : string) :
  s <> "" -> endswith_slash (String a s) = endswith_slash s.
Proof. destruct s; [congruence|reflexivity]. Qed.

Lemma endswith_slash_app (x c : string) :
  c <> "" -> endswith_slash (x ++ c) = endswith_slash c.
Proof.
  intros Hc. induction x as [|a x IH]; [reflexivity|].
  change (String a x ++ c) with (String a (x ++ c)).
  rewrite endswith_slash_cons by (destruct x; [exact Hc|discriminate]).
  exact IH.
Qed.

Lemma endswith_slash_valid (c : string) :
  c <> "" -> no_slash c = true -> endswith_slash c = false.
Proof.
  induction c as [|a r IH]; intros Hne H; [congruence|].
  apply andb_true_iff in H as [Ha Hr]. apply negb_true_iff in Ha.
  destruct r as [|b r]; [exact Ha|].
  rewrite endswith_slash_cons by discriminate. apply IH; [discriminate|exact Hr].
Qed.

Lemma valid_comp_spec (c : string) :
  LitCfg.valid_comp c = true ->
  c <> "" /\ c <> "." /\ c <> ".." /\ no_slash c = true.
Proof.
  unfold LitCfg.valid_comp. intros H.
  apply andb_true_iff in H as [H Hs]. apply andb_true_iff in H as [H H2].
  apply andb_true_iff in H as [H0 H1].
  apply negb_true_iff, eqb_neq in H0, H1, H2. tauto.
Qed.

Lemma concat_nonempty (L : list string) :
  L <> [] -> Forall (fun c => LitCfg.valid_comp c = true) L ->
  String.concat "/" L <> "".
Proof.
  intros Hne HL. destruct L as [|x L]; [congruence|].
  inversion HL as [|? ? Hx _]; subst. apply valid_comp_spec in Hx as [Hx _].
  destruct L; [exact Hx|]. rewrite concat_cons2. destruct x; [congruence|discriminate].
Qed.

Lemma endswith_slash_concat (L : list string) :
  L <> [] -> Forall (fun c => LitCfg.valid_comp c = true) L ->
  endswith_slash (String.concat "/" L) = false.
Proof.
  intros Hne HL. destruct L as [|x L] using rev_ind; [congruence|].
  apply Forall_app in HL as [HL Hx]. inversion Hx as [|? ? Hv _]; subst.
  apply valid_comp_spec in Hv as (Hx0 & _ & _ & Hxs).
  destruct L as [|y L].
  - apply endswith_slash_valid; assumption.
  - rewrite concat_snoc by discriminate.
    change (String "/" x) with ("/" ++ x).
    rewrite <- str_append_assoc, endswith_slash_app by exact Hx0.
    apply endswith_slash_valid; assumption.
Qed.

Lemma startswith_slash_concat (L : list string) :
  L <> [] -> Forall (fun c => LitCfg.valid_comp c = true) L ->
  exists a t, String.concat "/" L = String a t /\ is_slash a = false.
Proof.
  intros Hne HL. destruct L as [|x L]; [congruence|].
  inversion HL as [|? ? Hx _]; subst. apply valid_comp_spec in Hx as (Hx0 & _ & _ & Hxs).
  destruct x as [|a t]; [congruence|].
  apply andb_true_iff in Hxs as [Ha _]. apply negb_true_iff in Ha.
  destruct L; cbn; eauto.
Qed.

End PathFacts.

Section AbsPaths.

Import PosixPath.
Local Open Scope string_scope.
Local Arguments is_slash : simpl never.

Definition all_valid (L : list string) : Prop :=
  Forall (fun c => LitCfg.valid_comp c = true) L.

Lemma join2_abs (L : list string) (c : string) :
  all_valid L -> startswith_slash c = false ->
  join2 (LitCfg.abs_path L) c = LitCfg.abs_path (L ++ [c])%list.
Proof.
  intros HL Hc. unfold join2. rewrite Hc.
  destruct L as [|x L].
  - reflexivity.
  - unfold LitCfg.abs_path.
    rewrite endswith_slash_cons by (apply concat_nonempty; [discriminate|exact HL]).
    rewrite endswith_slash_concat by (discriminate || exact HL).
    rewrite concat_snoc by discriminate. reflexivity.
Qed.

Lemma substring_all_ge (s : string) (n : nat) :
  (String.length s <= n)%nat -> substring 0 n s = s.
Proof.
  revert n; induction s as [|a s IH]; intros [|n] Hn; cbn in *;
    [reflexivity|reflexivity|lia|].
  rewrite IH by lia. reflexivity.
Qed.

Lemma normpath_fold_valid (i : nat) (L : list string) (st : list string) :
  all_valid L -> fold_left (normpath_step i) L st = (rev L ++ st)%list.
Proof.
  revert st; induction L as [|x L IH]; intros st HL; [reflexivity|].
  inversion HL as [|? ? Hx HL']; subst.
  apply valid_comp_spec in Hx as (H0 & H1 & H2 & _).
  cbn [fold_left]. rewrite IH by exact HL'.
  unfold normpath_step.
  apply eqb_neq in H0, H1, H2. rewrite H0, H1, H2. cbn.
  rewrite <- app_assoc. reflexivity.
Qed.

Lemma removelast_rev_tl {A} (l : list A) : removelast l = rev (tl (rev l)).
Proof.
  destruct l as [|x l] using rev_ind; [reflexivity|].
  rewrite removelast_last, rev_app_distr. cbn. rewrite rev_involutive. reflexivity.
Qed.

Lemma normpath_parent (comps : list string) :
  all_valid comps ->
  normpath (LitCfg.abs_path (comps ++ [".."])%list) = LitCfg.abs_path (removelast comps).
Proof.
  intros Hc. unfold normpath, LitCfg.abs_path.
  set (L := (comps ++ [".."])%list).
  assert (HLne : L <> []) by (unfold L; destruct comps; discriminate).
  assert (HLs : Forall (fun c => no_slash c = true) L).
  { unfold L. apply Forall_app; split; [|repeat constructor].
    eapply Forall_impl; [|exact Hc]. intros c Hv. apply valid_comp_spec in Hv; tauto. }
  assert (Hinit : initial_slashes (String "/" (String.concat "/" L)) = 1%nat).
  { unfold initial_slashes. cbn [startswith_slash]. rewrite is_slash_slash.
    cbn [String.length substring]. rewrite substring_all_ge by lia.
    replace (startswith_slash (String.concat "/" L)) with false; [reflexivity|].
    unfold L. destruct comps as [|x comps]; [reflexivity|].
    inversion Hc as [|? ? Hx _]; subst.
    apply valid_comp_spec in Hx as (Hx0 & _ & _ & Hxs).
    destruct x as [|b x]; [congruence|].
    apply andb_true_iff in Hxs as [Hb _]. apply negb_true_iff in Hb.
    change ((String b x :: comps) ++ [".."])%list
      with (String b x :: (comps ++ [".."]))%list.
    destruct (comps ++ [".."])%list as [|y r] eqn:E; [destruct comps; discriminate|].
    rewrite concat_cons2. cbn. symmetry; exact Hb. }
  rewrite Hinit. cbn [String.eqb].
  cbn [split]. rewrite is_slash_slash. rewrite split_concat by assumption.
  cbn [fold_left]. replace (normpath_step 1 [] "") with (@nil string) by reflexivity.
  unfold L. rewrite fold_left_app.
  rewrite (normpath_fold_valid 1 comps [] Hc), app_nil_r.
  replace (fold_left (normpath_step 1) [".."] (rev comps)) with (tl (rev comps)).
  - rewrite <- removelast_rev_tl. reflexivity.
  - cbn. destruct (rev comps) as [|top r] eqn:E; [reflexivity|].
    assert (Htop : In top comps) by (apply in_rev; rewrite E; left; reflexivity).
    apply (proj1 (Forall_forall _ _) Hc) in Htop.
    apply valid_comp_spec in Htop as (_ & _ & Htop & _).
    apply eqb_neq in Htop. unfold normpath_step. cbn. rewrite Htop. reflexivity.
Qed.

End AbsPaths.

Section Dirname.

Import PosixPath.
Local Open Scope string_scope.
Local Arguments is_slash : simpl never.

Lemma upto_last_slash_none (f : string) : no_slash f = true -> upto_last_slash f = "".
Proof.
  induction f as [|c r IH]; intros H; [reflexivity|].
  apply andb_true_iff in H as [Hc Hr]. apply negb_true_iff in Hc.
  cbn. rewrite IH by exact Hr. cbn. rewrite Hc. reflexivity.
Qed.

Lemma append_slash_nonempty (x f : string) : x ++ String "/" f <> "".
Proof. destruct x; discriminate. Qed.

Lemma upto_last_slash_app (x f : string) :
  no_slash f = true -> upto_last_slash (x ++ String "/" f) = x ++ "/".
Proof.
  intros Hf. induction x as [|c x IH]; cbn - [upto_last_slash].
  - cbn. rewrite upto_last_slash_none by exact Hf. cbn. rewrite is_slash_slash. reflexivity.
  - cbn [upto_last_slash]. rewrite IH.
    replace (String.eqb (x ++ "/") "") with false; [reflexivity|].
    symmetry; apply eqb_neq, append_slash_nonempty.
Qed.

Lemma rstrip_slash_trailing (x : string) :
  rstrip_slash (x ++ "/") = rstrip_slash x.
Proof.
  induction x as [|c x IH]; cbn.
  - rewrite is_slash_slash. reflexivity.
  - rewrite IH. reflexivity.
Qed.

Lemma rstrip_slash_id (x : string) : endswith_slash x = false -> rstrip_slash x = x.
Proof.
  induction x as [|c x IH]; intros H; [reflexivity|].
  destruct x as [|d x].
  - cbn in *. rewrite H. reflexivity.
  - rewrite endswith_slash_cons in H by discriminate.
    transitivity (let r' := rstrip_slash (String d x) in
                  if String.eqb r' "" && is_slash c then "" else String c r');
      [reflexivity|].
    rewrite IH by exact H. reflexivity.
Qed.

Lemma dirname_abs (comps : list string) (fname : string) :
  all_valid comps -> no_slash fname = true ->
  dirname (LitCfg.abs_path (comps ++ [fname])%list) = LitCfg.abs_path comps.
Proof.
  intros Hc Hf. unfold dirname, LitCfg.abs_path.
  destruct comps as [|x comps].
  - cbn [app String.concat].
    change (String "/" fname) with ("" ++ String "/" fname).
    rewrite upto_last_slash_app by exact Hf. reflexivity.
  - rewrite concat_snoc by discriminate.
    change (String "/" (String.concat "/" (x :: comps) ++ String "/" fname))
      with (String "/" (String.concat "/" (x :: comps)) ++ String "/" fname).
    rewrite upto_last_slash_app by exact Hf.
    destruct (startswith_slash_concat (x :: comps)) as (a & t & Ht & Ha);
      [discriminate|exact Hc|].
    rewrite Ht. cbn [String.append String.eqb all_slashes negb andb].
    rewrite is_slash_slash, Ha. cbn [negb andb].
    change (String "/" (String a (t ++ "/"))) with (String "/" (String a t) ++ "/").
    rewrite rstrip_slash_trailing, <- Ht, rstrip_slash_id; [reflexivity|].
    rewrite endswith_slash_cons by (apply concat_nonempty; [discriminate|exact Hc]).
    apply endswith_slash_concat; [discriminate|exact Hc].
Qed.

End Dirname.

Lemma Forall_removelast {A} (P : A -> Prop) (l : list A) :
  Forall P l -> Forall P (removelast l).
Proof.
  induction 1 as [|x l Hx Hl IH]; [constructor|].
  destruct l as [|y l]; [constructor|]. cbn. constructor; [exact Hx|exact IH].
Qed.

Lemma lit_load_abs (cwd : string) (comps : list string) (fname : string) :
  all_valid comps -> PosixPath.no_slash fname = true ->
  let cfg := LitCfg.load cwd (LitCfg.abs_path (comps ++ [fname])) LitCfg.lit_default in
  LitCfg.test_source_root cfg = Some (LitCfg.abs_path comps) /\
  LitCfg.substitutions cfg =
    [("%pyxc"%string, LitCfg.abs_path (removelast comps ++ ["build"; "pyxc"]%string))].
Proof.
  intros Hc Hf. cbn zeta. unfold LitCfg.load. cbn [LitCfg.test_source_root LitCfg.substitutions].
  rewrite dirname_abs by assumption. split; [reflexivity|].
  unfold PosixPath.join. cbn [fold_left].
  rewrite join2_abs by (exact Hc || reflexivity).
  unfold PosixPath.abspath.
  replace (PosixPath.isabs (LitCfg.abs_path (comps ++ [".."]%string))) with true
    by reflexivity.
  rewrite normpath_parent by exact Hc.
  assert (Hr : all_valid (removelast comps)) by (apply Forall_removelast; exact Hc).
  assert (Hb : all_valid (removelast comps ++ ["build"%string])).
  { apply Forall_app; split; [exact Hr|]. constructor; [reflexivity|constructor]. }
  rewrite join2_abs by (exact Hr || reflexivity).
  rewrite join2_abs by (exact Hb || reflexivity).
  rewrite <- app_assoc. reflexivity.
Qed.

(* ------------------------------------------------------------------ *)
(** ** Console output of the kernels *)

Fixpoint no_newline (s : string) : bool :=
  match s with
  | EmptyString => true
  | String c r => negb (Ascii.eqb c (ascii_of_nat 10)) && no_newline r
  end.

Lemma digit_not_newline (d : Z) : Ascii.eqb (Py.digit (d mod 10)) (ascii_of_nat 10) = false.
Proof.
  assert (H : 0 <= d mod 10 < 10) by (apply Z.mod_pos_bound; lia).
  destruct H as [H0 H1]. unfold Py.digit.
  assert (Hc : d mod 10 = 0 \/ d mod 10 = 1 \/ d mod 10 = 2 \/ d mod 10 = 3 \/
               d mod 10 = 4 \/ d mod 10 = 5 \/ d mod 10 = 6 \/ d mod 10 = 7 \/
               d mod 10 = 8 \/ d mod 10 = 9) by lia.
  repeat destruct Hc as [Hc|Hc]; rewrite Hc; reflexivity.
Qed.

Lemma digits_acc_no_newline (f : nat) :
  forall n acc, no_newline acc = true -> no_newline (Py.digits_acc f n acc) = true.
Proof.
  induction f as [|f IH]; intros n acc H; [exact H|]. cbn [Py.digits_acc].
  assert (H' : no_newline (String (Py.digit (n mod 10)) acc) = true)
    by (cbn [no_newline]; rewrite digit_not_newline; exact H).
  destruct (n <? 10); [exact H'|]. apply IH; exact H'.
Qed.

Lemma str_int_no_newline (n : Z) : no_newline (Py.str_int n) = true.
Proof.
  unfold Py.str_int, Py.digits.
  destruct (n <? 0); [cbn [no_newline]; rewrite andb_true_l|];
    apply digits_acc_no_newline; reflexivity.
Qed.

Inductive kernel := LoopSumK | FibK | PrimeCountK | ParticlesK | LcgHashK.

Definition kernel_main (k : kernel) : IO.prog :=
  match k with
  | LoopSumK => LoopSum.main
  | FibK => Fib.main
  | PrimeCountK => Primes.main
  | ParticlesK => Particles.main
  | LcgHashK => Lcg.main
  end.

Lemma primes_main_total :
  Primes.main_total Primes.recursion_limit = Some 2900.
Proof.
  unfold Primes.main_total. rewrite (main_fold _ _ _ count_primes_1900). reflexivity.
Qed.

Lemma loopsum_main_eq :
  LoopSum.main = IO.print "2500500025000000.000000" IO.Done.
Proof. unfold LoopSum.main. rewrite loopsum_10000. reflexivity. Qed.

Lemma fib_main_eq : Fib.main = IO.print "165580141.000000" IO.Done.
Proof. unfold Fib.main. rewrite fib_41. reflexivity. Qed.

Lemma primes_main_eq : Primes.main = IO.print "2900.000000" IO.Done.
Proof.
  unfold Primes.main, Primes.main_with. rewrite primes_main_total. reflexivity.
Qed.

Lemma kernel_main_shape (k : kernel) :
  exists line, kernel_main k = IO.Print (line ++ Py.newline) IO.Done
               /\ no_newline line = true.
Proof.
  destruct k; cbn [kernel_main].
  - rewrite loopsum_main_eq. eexists; split; reflexivity.
  - rewrite fib_main_eq. eexists; split; reflexivity.
  - rewrite primes_main_eq. eexists; split; reflexivity.
  - destruct result_ok as [c [Hc _]]. unfold Particles.main. rewrite Hc.
    exists (Py.str_int c). split; [reflexivity|apply str_int_no_newline].
  - exists (Py.str_int Lcg.final_acc). split; [reflexivity|apply str_int_no_newline].
Qed.

(* ================================================================== *)
(** * Properties of the kernels and of the lit configuration *)

(** C1 (as stated, refuted): the loop-sum kernel does not print
    [100000000.000000]. *)
Lemma loopsum_main_not_1e8 :
  IO.stdout_of (fst (IO.run empty_world LoopSum.main))
  <> ("100000000.000000" ++ Py.newline)%string.
Proof. rewrite loopsum_main_eq. vm_compute. discriminate. Qed.

(** C1 (amended): in every environment the loop-sum kernel's [main]
    prints exactly the one line [2500500025000000.000000], the value
    [loopsum(10000, 10000) = 2500500025000000] as a float with six
    fractional digits, and finishes normally. *)
Theorem loopsum_main_output (w : IO.world) :
  IO.run w LoopSum.main =
    ([IO.EvStdout ("2500500025000000.000000" ++ Py.newline)%string], IO.Normal).
Proof. rewrite loopsum_main_eq. reflexivity. Qed.

(** C2: [is_prime n] answers [True] exactly when [n] is prime (whenever
    it returns), [count_primes(1900)] is the number of primes in
    [[2, 1900]], [main]'s total is ten times that count, and [main]
    prints that total as a float with six fractional digits. *)
Theorem primecount_main_output :
  (forall fuel n b, Primes.is_prime fuel n = Some b -> (b = true <-> Z.prime n)) /\
  (forall fuel c, Primes.count_primes fuel 1900 = Some c ->
                  c = Primes.prime_count 1900) /\
  Primes.main_total Primes.recursion_limit = Some (10 * Primes.prime_count 1900) /\
  (forall w, IO.run w Primes.main =
     ([IO.EvStdout (Py.format_6f (10 * Primes.prime_count 1900) ++ Py.newline)%string],
      IO.Normal)) /\
  Primes.prime_count 1900 = 290.
Proof.
  assert (Hc : Primes.prime_count 1900 = 290)
    by (symmetry; exact (count_primes_spec _ _ _ count_primes_1900)).
  split; [exact is_prime_spec|].
  split; [intros fuel c; exact (count_primes_spec fuel 1900 c)|].
  rewrite Hc. split; [exact primes_main_total|].
  split; [|reflexivity].
  intros w. rewrite primes_main_eq. reflexivity.
Qed.

(** C3: for [n >= 1], [fib(n)] is the [n]-th term of the sequence with
    [fib(1) = fib(2) = 1] and [fib(n) = fib(n-1) + fib(n-2)]; [main]
    prints the 41st term, [165580141], with six fractional digits. *)
Theorem fib_matches_sequence (n : Z) (Hn : 1 <= n) :
  Fib.fib n = Fib.fib_seq (Z.to_nat n) /\
  (forall w, IO.run w Fib.main =
     ([IO.EvStdout (Py.format_6f (Fib.fib_seq 41) ++ Py.newline)%string], IO.Normal)) /\
  Fib.fib_seq 41 = 165580141.
Proof.
  split; [|split; [|exact fib_seq_41]].
  - unfold Fib.fib. replace (Z.to_nat n) with (S (Z.to_nat (n - 1))) by lia.
    exact (proj1 (fib_nat_seq _)).
  - intros w. rewrite fib_main_eq, fib_seq_41. reflexivity.
Qed.

(** C4: the lcg-hash kernel prints one integer in [[0, 2147483647)] and
    the particles kernel prints one integer in [[0, 1000000007)]. *)
Theorem checksums_below_moduli :
  (exists a, Lcg.main = IO.print_int a IO.Done /\ 0 <= a < 2147483647) /\
  (exists c, Particles.main = IO.print_int c IO.Done /\ 0 <= c < 1000000007).
Proof.
  split.
  - exists Lcg.final_acc. split; [reflexivity|exact lcg_final_acc_bound].
  - destruct result_ok as [c [Hc Hb]]. exists c.
    split; [unfold Particles.main; rewrite Hc; reflexivity|exact Hb].
Qed.

(** C5: running a kernel in two arbitrary environments (standard input,
    environment variables, files) yields the same events, hence
    byte-identical standard output, and the same outcome. *)
Theorem kernels_deterministic (k : kernel) (w1 w2 : IO.world) :
  IO.run w1 (kernel_main k) = IO.run w2 (kernel_main k).
Proof.
  destruct (kernel_main_shape k) as [line [H _]]. rewrite H. reflexivity.
Qed.

(** C6: loading the configuration registers exactly one substitution,
    [%pyxc], mapped to [join(abspath(join(test_source_root, "..")),
    "build", "pyxc")]; for a configuration file [/c1/.../ck/fname] with
    plain components, the test-source root is [/c1/.../ck] and the
    path is [/c1/.../c(k-1)/build/pyxc]: [build/pyxc] under the parent of
    the test-source root. *)
Theorem lit_pyxc_substitution (cwd : string) (comps : list string) (fname : string)
    (Hc : forallb LitCfg.valid_comp comps = true)
    (Hf : PosixPath.no_slash fname = true) :
  (forall file,
     LitCfg.substitutions (LitCfg.load cwd file LitCfg.lit_default) =
       [("%pyxc"%string,
         PosixPath.join
           (PosixPath.abspath cwd (PosixPath.join (PosixPath.dirname file) [".."%string]))
           ["build"; "pyxc"]%string)]) /\
  let cfg := LitCfg.load cwd (LitCfg.abs_path (comps ++ [fname])) LitCfg.lit_default in
  LitCfg.test_source_root cfg = Some (LitCfg.abs_path comps) /\
  LitCfg.substitutions cfg =
    [("%pyxc"%string, LitCfg.abs_path (removelast comps ++ ["build"; "pyxc"]%string))].
Proof.
  split; [intros file; reflexivity|].
  apply lit_load_abs; [|exact Hf].
  apply Forall_forall. intros c Hin. apply (proj1 (forallb_forall _ _) Hc c Hin).
Qed.

(** C7: after loading, the test-execution root equals the test-source
    root, which is the directory of the configuration file, and the test
    suffixes are exactly [[".pyxc"]]. *)
Theorem lit_exec_root_and_suffixes (cwd file : string) :
  let cfg := LitCfg.load cwd file LitCfg.lit_default in
  LitCfg.test_exec_root cfg = LitCfg.test_source_root cfg /\
  LitCfg.test_source_root cfg = Some (PosixPath.dirname file) /\
  LitCfg.suffixes cfg = [".pyxc"%string].
Proof. repeat split. Qed.

(** C8: in every environment each kernel's [main] writes exactly one
    line to standard output, performs no other event (no input, no
    environment lookup, no file access) and finishes normally. *)
Theorem kernels_print_one_line (k : kernel) (w : IO.world) :
  exists line,
    IO.run w (kernel_main k) = ([IO.EvStdout (line ++ Py.newline)%string], IO.Normal)
    /\ no_newline line = true.
Proof.
  destruct (kernel_main_shape k) as [line [H Hl]]. exists line.
  rewrite H. split; [reflexivity|exact Hl].
Qed.

(** C9: for [n, m >= 0], [loopsum(n, m) = (n(n+1)/2) * (m(m+1)/2)]; in
    particular [loopsum(10000, 10000) = 2500500025000000]. *)
Theorem loopsum_closed_form (n m : Z) (Hn : 0 <= n) (Hm : 0 <= m) :
  LoopSum.loopsum n m = (n * (n + 1) / 2) * (m * (m + 1) / 2) /\
  LoopSum.loopsum 10000 10000 = 2500500025000000.
Proof. split; [exact (loopsum_closed n m Hn Hm)|exact loopsum_10000]. Qed.

(** C10: [divisible(n, d)] terminates for every [d >= 1] and every [n];
    so do [is_prime_from(n, d)] for every [d >= 1], [is_prime(n)] and
    [count_primes(limit)] for every argument: some recursion budget
    suffices. *)
Theorem primecount_terminates :
  (forall n d, 1 <= d -> exists fuel b, Primes.divisible fuel n d = Some b) /\
  (forall n d, 1 <= d -> exists fuel b, Primes.is_prime_from fuel n d = Some b) /\
  (forall n, exists fuel b, Primes.is_prime fuel n = Some b) /\
  (forall limit, exists fuel c, Primes.count_primes fuel limit = Some c).
Proof.
  split; [|split; [|split]].
  - intros n d Hd. exists (S (Z.to_nat n)). apply divisible_terminates; lia.
  - intros n d Hd. exists (S (Z.to_nat (Z.max 0 (2 * n + 2 - d)))).
    apply is_prime_from_terminates; lia.
  - intros n. exists (S (Z.to_nat (2 * n))). apply is_prime_terminates; lia.
  - intros limit. eexists. apply count_primes_terminates.
Qed.

(* ------------------------------------------------------------------ *)
(** ** Instances of the properties at concrete inputs *)

Lemma primecount_main_output_witness :
  Primes.is_prime Primes.recursion_limit 1901 = Some true /\ (true = true <-> Z.prime 1901).
Proof.
  split; [vm_compute; reflexivity|].
  apply (proj1 primecount_main_output Primes.recursion_limit 1901 true).
  vm_compute. reflexivity.
Defined.

Lemma fib_matches_sequence_witness :
  1 <= 41 /\ Fib.fib 41 = Fib.fib_seq (Z.to_nat 41).
Proof.
  split; [lia|]. exact (proj1 (fib_matches_sequence 41 ltac:(lia))).
Defined.

Section LitWitness.
Local Open Scope string_scope.

Lemma lit_pyxc_substitution_witness :
  forallb LitCfg.valid_comp ["root"; "pyxc"; "code"; "chapter06"; "test"]%string = true /\
  PosixPath.no_slash "lit.cfg.py" = true /\
  LitCfg.substitutions
    (LitCfg.load "/" (LitCfg.abs_path ["root"; "pyxc"; "code"; "chapter06"; "test";
                                       "lit.cfg.py"]%string) LitCfg.lit_default)
  = [("%pyxc"%string,
      LitCfg.abs_path ["root"; "pyxc"; "code"; "chapter06"; "build"; "pyxc"]%string)].
Proof.
  split; [reflexivity|split; [reflexivity|]].
  exact (proj2 (proj2 (lit_pyxc_substitution "/" ["root"; "pyxc"; "code"; "chapter06"; "test"]
                         "lit.cfg.py" Logic.eq_refl Logic.eq_refl))).
Defined.

End LitWitness.

Lemma loopsum_closed_form_witness :
  0 <= 3 /\ 0 <= 4 /\ LoopSum.loopsum 3 4 = (3 * (3 + 1) / 2) * (4 * (4 + 1) / 2).
Proof.
  split; [lia|split; [lia|]].
  exact (proj1 (loopsum_closed_form 3 4 ltac:(lia) ltac:(lia))).
Defined.

Lemma primecount_terminates_witness :
  1 <= 2 /\ exists fuel b, Primes.divisible fuel 1900 2 = Some b.
Proof.
  split; [lia|]. apply (proj1 primecount_terminates). lia.
Defined.

(* ================================================================== *)
(** * Further properties of the kernels *)

(** ** Helper lemmas *)

Lemma range_1_max (n : Z) : Py.range 1 (n + 1) = Py.range 1 (Z.max 0 n + 1).
Proof. unfold Py.range. f_equal. f_equal. lia. Qed.

Lemma fib_nat_SSS (k : nat) :
  Fib.fib_nat (S (S (S k))) = Fib.fib_nat (S (S k)) + Fib.fib_nat (S k).
Proof. reflexivity. Qed.

Lemma fib_nat_props (k : nat) :
  1 <= Fib.fib_nat k /\ Fib.fib_nat k <= Fib.fib_nat (S k).
Proof.
  induction k as [k IH] using lt_wf_ind.
  destruct k as [|[|[|k]]]; try (cbn; split; lia).
  destruct (IH (S (S k)) ltac:(lia)) as [H1 H1'].
  destruct (IH (S k) ltac:(lia)) as [H2 H2'].
  rewrite (fib_nat_SSS (S k)), (fib_nat_SSS k). lia.
Qed.


Lemma lcg_closed_nat (x0 acc0 : Z) (k : nat) :
  0 <= x0 < Lcg.MODV -> 0 <= acc0 < Lcg.MODV ->
  fold_left Lcg.step (Py.range 0 (Z.of_nat k)) (x0, acc0)
  = (lcg_x_after x0 (Z.of_nat k), (acc0 + lcg_acc_sum x0 (Z.of_nat k)) mod Lcg.MODV).
Proof.
  intros Hx Ha. unfold lcg_acc_sum.
  induction k as [|k IH].
  - unfold lcg_x_after. cbn. rewrite Z.mul_1_r, Z.add_0_r, !Z.mod_small by lia.
    reflexivity.
  - replace (Z.of_nat (S k)) with (0 + Z.of_nat (S k)) by lia.
    rewrite range_succ_end, !fold_left_app, Z.add_0_l, IH. cbn [fold_left Lcg.step].
    unfold lcg_x_after.
    rewrite Z.mul_mod_idemp_l by (unfold Lcg.MODV; lia).
    replace (x0 * 48271 ^ Z.of_nat k * 48271) with (x0 * 48271 ^ Z.of_nat (S k))
      by (rewrite Nat2Z.inj_succ, Z.pow_succ_r by lia; ring).
    replace (Z.of_nat k + 1) with (Z.of_nat (S k)) by lia.
    f_equal. rewrite <- Z.add_assoc, Z.add_mod_idemp_l by (unfold Lcg.MODV; lia).
    f_equal. ring.
Qed.

(** *** Lists built over [range(0, n)] *)

Lemma range_0_succ (s : Z) : 0 <= s -> Py.range 0 (s + 1) = Py.range 0 s ++ [s].
Proof.
  intros Hs. rewrite <- (Z2Nat.id s Hs).
  replace (Z.of_nat (Z.to_nat s) + 1) with (0 + Z.of_nat (S (Z.to_nat s))) by lia.
  rewrite range_succ_end. f_equal.
Qed.

Lemma length_range (a b : Z) : List.length (Py.range a b) = Z.to_nat (b - a).
Proof. unfold Py.range. rewrite length_map, length_seq. reflexivity. Qed.

Lemma get_nth {A} (l : list A) (i : Z) (d : A) :
  0 <= i < Z.of_nat (List.length l) -> Py.get l i = Some (nth (Z.to_nat i) l d).
Proof.
  intros Hi. unfold Py.get. rewrite norm_index_in by exact Hi.
  apply nth_error_nth'. lia.
Qed.

Lemma get_map_range {A} (h : Z -> A) (n i : Z) :
  0 <= i < n -> Py.get (map h (Py.range 0 n)) i = Some (h i).
Proof.
  intros Hi. unfold Py.get. rewrite norm_index_in
    by (rewrite length_map, length_range; lia).
  unfold Py.range. rewrite map_map, nth_error_map, nth_error_seq.
  destruct (Nat.ltb_spec (Z.to_nat i) (Z.to_nat (n - 0))); [|lia].
  cbn. f_equal. f_equal. lia.
Qed.

Lemma set_nth_map_seq {A} (h : nat -> A) (len : nat) :
  forall start k v, Py.set_nth (map h (seq start len)) k v
  = map (fun j => if Nat.eqb j (start + k) then v else h j) (seq start len).
Proof.
  induction len as [|len IH]; intros start k v; [reflexivity|].
  cbn [seq map]. destruct k as [|k]; cbn [Py.set_nth].
  - rewrite Nat.add_0_r, Nat.eqb_refl. f_equal.
    apply map_ext_in. intros j Hj. apply in_seq in Hj.
    destruct (Nat.eqb_spec j start); [lia|reflexivity].
  - rewrite IH. replace (S start + k)%nat with (start + S k)%nat by lia.
    destruct (Nat.eqb_spec start (start + S k)); [lia|reflexivity].
Qed.

Lemma set_map_range {A} (h : Z -> A) (n i : Z) (v : A) :
  0 <= i < n ->
  Py.set (map h (Py.range 0 n)) i v
  = Some (map (fun j => if j =? i then v else h j) (Py.range 0 n)).
Proof.
  intros Hi. rewrite set_in by (rewrite length_map, length_range; lia).
  f_equal. unfold Py.range. rewrite !map_map, set_nth_map_seq. apply map_ext.
  intros j. cbv beta. destruct (Nat.eqb_spec j (0 + Z.to_nat i)), (Z.eqb_spec (0 + Z.of_nat j) i);
    first [reflexivity|lia].
Qed.

(** *** The particle simulation in closed form *)

Lemma bin_total_succ (s i k : Z) :
  0 <= s -> bin_total (s + 1) i k = bin_total s i k + (if s mod 4 =? k then i + s else 0).
Proof.
  intros Hs. unfold bin_total. rewrite range_0_succ, fold_left_app by exact Hs.
  cbn [fold_left]. destruct (s mod 4 =? k); ring.
Qed.

Lemma some4_eq (a b c d a' b' c' d' : Z) :
  a = a' -> b = b' -> c = c' -> d = d' -> Some [a; b; c; d] = Some [a'; b'; c'; d'].
Proof. intros -> -> -> ->. reflexivity. Qed.

Lemma bins_update (s i : Z) :
  0 <= s ->
  exists b, Py.get (Particles.bins (particle_after s i)) (s mod 4) = Some b /\
            Py.set (Particles.bins (particle_after s i)) (s mod 4) (b + i + s)
            = Some (Particles.bins (particle_after (s + 1) i)).
Proof.
  intros Hs. unfold particle_after. cbn [Particles.bins].
  rewrite !bin_total_succ by exact Hs.
  assert (Hm : s mod 4 = 0 \/ s mod 4 = 1 \/ s mod 4 = 2 \/ s mod 4 = 3)
    by (pose proof (Z.mod_pos_bound s 4); lia).
  destruct Hm as [Hm|[Hm|[Hm|Hm]]]; rewrite Hm; eexists; split;
    [reflexivity| |reflexivity| |reflexivity| |reflexivity|];
    cbv [Py.set Py.norm_index Py.set_nth List.length Pos.to_nat Pos.iter_op Nat.add
      Z.of_nat Z.to_nat Z.leb Z.ltb Z.compare andb Pos.compare Pos.compare_cont
      Pos.of_succ_nat Pos.succ Pos.add];
    apply some4_eq; cbn [Z.eqb Pos.eqb]; ring.
Qed.

Lemma update_after (s i : Z) (ps : list Particles.Particle)
  (F : Particles.Particle -> list Particles.Particle) :
  0 <= s ->
  Py.get ps i = Some (particle_after s i) ->
  (forall v, Py.set ps i v = Some (F v)) ->
  Particles.update s ps i = Some (F (particle_after (s + 1) i)).
Proof.
  intros Hs Hget Hset. destruct (bins_update s i Hs) as [b [Hgb Hsb]].
  unfold Particles.update. rewrite Hget, obind_some, Hgb, obind_some, Hsb, obind_some.
  rewrite Hset. do 2 f_equal. unfold particle_after. cbn [Particles.id Particles.pos
    Particles.vel Particles.x Particles.y]. f_equal. f_equal; ring.
Qed.

Lemma inner_closed (s : Z) (k : nat) :
  0 <= s -> Z.of_nat k <= Particles.N ->
  fold_left (Particles.inner s) (Py.range 0 (Z.of_nat k)) (Some (stage s 0))
  = Some (stage s (Z.of_nat k)).
Proof.
  intros Hs. induction k as [|k IH]; intros Hk; [reflexivity|].
  rewrite Nat2Z.inj_succ, <- Z.add_1_r, range_0_succ, fold_left_app, IH by lia.
  cbn [fold_left]. unfold Particles.inner. rewrite obind_some.
  unfold stage. rewrite (update_after s (Z.of_nat k) _
    (fun v => map (fun j => if j =? Z.of_nat k then v
                            else if j <? Z.of_nat k then particle_after (s + 1) j
                            else particle_after s j) (Py.range 0 Particles.N))).
  - apply (f_equal Some), map_ext. intros j.
    destruct (Z.eqb_spec j (Z.of_nat k)), (Z.ltb_spec j (Z.of_nat k)),
      (Z.ltb_spec j (Z.of_nat k + 1)); subst; first [reflexivity|lia].
  - exact Hs.
  - rewrite (get_map_range (fun j => if j <? Z.of_nat k then particle_after (s + 1) j
                                     else particle_after s j)) by lia.
    rewrite Z.ltb_irrefl. reflexivity.
  - intros v. apply set_map_range. lia.
Qed.

Lemma stage_0 (s : Z) : stage s 0 = map (particle_after s) (Py.range 0 Particles.N).
Proof.
  unfold stage. apply map_ext_in. intros j Hj. apply in_range in Hj.
  destruct (Z.ltb_spec j 0); [lia|reflexivity].
Qed.

Lemma stage_N (s : Z) :
  stage s Particles.N = map (particle_after (s + 1)) (Py.range 0 Particles.N).
Proof.
  unfold stage. apply map_ext_in. intros j Hj. apply in_range in Hj.
  destruct (Z.ltb_spec j Particles.N); [reflexivity|lia].
Qed.

Lemma particle_after_0 (i : Z) : particle_after 0 i = Particles.new_particle i.
Proof.
  unfold particle_after, Particles.new_particle.
  replace (bin_total 0 i 0) with 0 by reflexivity.
  replace (bin_total 0 i 1) with 0 by reflexivity.
  replace (bin_total 0 i 2) with 0 by reflexivity.
  replace (bin_total 0 i 3) with 0 by reflexivity.
  rewrite !Z.mul_0_l, !Z.add_0_r. reflexivity.
Qed.

Lemma simulate_closed_nat (m : nat) :
  fold_left Particles.outer (Py.range 0 (Z.of_nat m)) (Some Particles.initial)
  = Some (map (particle_after (Z.of_nat m)) (Py.range 0 Particles.N)).
Proof.
  assert (HN : 0 <= Particles.N) by (unfold Particles.N; lia).
  induction m as [|m IH].
  - cbn [Z.of_nat]. change (Py.range 0 0) with (@nil Z). cbn [fold_left].
    unfold Particles.initial. apply (f_equal Some), map_ext.
    intros i. symmetry. apply particle_after_0.
  - rewrite Nat2Z.inj_succ, <- Z.add_1_r, range_0_succ, fold_left_app, IH by lia.
    cbn [fold_left]. rewrite outer_some, <- stage_0, <- stage_N.
    pose proof (inner_closed (Z.of_nat m) (Z.to_nat Particles.N) ltac:(lia) ltac:(lia)) as H.
    rewrite Z2Nat.id in H by exact HN. exact H.
Qed.

(** *** The checksum loop *)

Lemma firstn_snoc {A} (l : list A) (k : nat) (a : A) :
  nth_error l k = Some a -> firstn (S k) l = firstn k l ++ [a].
Proof.
  revert k; induction l as [|b l IH]; intros [|k] H; cbn [nth_error] in H;
    try discriminate.
  - injection H as ->. reflexivity.
  - change (b :: firstn (S k) l = b :: firstn k l ++ [a]). rewrite (IH k H). reflexivity.
Qed.

Lemma particles_sum_snoc (l : list Particles.Particle) (p : Particles.Particle) :
  particles_sum (l ++ [p]) = particles_sum l + score p.
Proof. unfold particles_sum. rewrite fold_left_app. reflexivity. Qed.

Lemma check_closed (ps : list Particles.Particle) (k : nat) :
  well_shaped ps -> (k <= List.length ps)%nat ->
  fold_left (Particles.check ps) (Py.range 0 (Z.of_nat k)) (Some 0)
  = Some (particles_sum (firstn k ps) mod Particles.MODV).
Proof.
  intros [Hlen Hb]. induction k as [|k IH]; intros Hk.
  - change (Py.range 0 (Z.of_nat 0)) with (@nil Z). reflexivity.
  - rewrite Nat2Z.inj_succ, <- Z.add_1_r, range_0_succ, fold_left_app, IH by lia.
    cbn [fold_left].
    destruct (nth_error ps k) as [p|] eqn:Ep; [|apply nth_error_None in Ep; lia].
    pose proof (proj1 (Forall_forall _ _) Hb p (nth_error_In _ _ Ep)) as Hp4.
    cbn beta in Hp4.
    assert (Hg : Py.get ps (Z.of_nat k) = Some p).
    { unfold Py.get. rewrite norm_index_in by lia. rewrite Nat2Z.id. exact Ep. }
    unfold Particles.check. rewrite obind_some, Hg, obind_some.
    rewrite !(get_nth (Particles.bins p) _ 0) by (rewrite Hp4; lia). rewrite !obind_some.
    rewrite (firstn_snoc ps k p Ep), particles_sum_snoc.
    apply (f_equal Some).
    rewrite <- !Z.add_assoc, Z.add_mod_idemp_l by (unfold Particles.MODV; lia).
    change (Z.to_nat 0) with 0%nat. change (Z.to_nat 1) with 1%nat.
    change (Z.to_nat 2) with 2%nat. change (Z.to_nat 3) with 3%nat.
    unfold score. f_equal. ring.
Qed.

Lemma checksum_once (ps : list Particles.Particle) :
  well_shaped ps -> Particles.checksum_of ps = Some (particles_sum ps mod Particles.MODV).
Proof.
  intros Hps. pose proof (proj1 Hps) as Hlen.
  pose proof (check_closed ps (List.length ps) Hps (le_n _)) as H.
  rewrite firstn_all, Hlen, Z2Nat.id in H by (unfold Particles.N; lia).
  exact H.
Qed.

Lemma particle_after_shaped (s : Z) :
  well_shaped (map (particle_after s) (Py.range 0 Particles.N)).
Proof.
  split.
  - rewrite length_map, length_range. f_equal.
  - apply Forall_forall. intros p Hp. apply in_map_iff in Hp.
    destruct Hp as [i [<- _]]. reflexivity.
Qed.

(** *** Paths built by [abspath] and [join] *)

Section AbsolutePaths.

Import PosixPath.
Local Open Scope string_scope.

Lemma join2_abs_left (a b : string) :
  startswith_slash a = true -> startswith_slash b = false ->
  startswith_slash (join2 a b) = true.
Proof.
  intros Ha Hb. destruct a as [|c r]; [discriminate|]. unfold join2. rewrite Hb.
  destruct (String.eqb (String c r) "" || endswith_slash (String c r)); exact Ha.
Qed.

Lemma abspath_arg_abs (cwd p : string) :
  startswith_slash cwd = true ->
  startswith_slash (if isabs p then p else join cwd [p]) = true.
Proof.
  intros Hc. unfold isabs. destruct (startswith_slash p) eqn:Hp; [exact Hp|].
  unfold join. cbn [fold_left]. apply join2_abs_left; assumption.
Qed.

Lemma normpath_abs (p : string) :
  startswith_slash p = true -> startswith_slash (normpath p) = true.
Proof.
  intros Hp. destruct p as [|c r]; [discriminate|]. unfold normpath.
  replace (String.eqb (String c r) "") with false by reflexivity. cbv zeta.
  assert (Hi : exists k, initial_slashes (String c r) = S k).
  { unfold initial_slashes. rewrite Hp.
    destruct (_ && _); eexists; reflexivity. }
  destruct Hi as [k ->]. reflexivity.
Qed.

Lemma abspath_abs (cwd p : string) :
  startswith_slash cwd = true -> startswith_slash (abspath cwd p) = true.
Proof. intros Hc. apply normpath_abs, abspath_arg_abs, Hc. Qed.

Lemma endswith_slash_last (d : string) :
  endswith_slash d = true -> exists d', d = d' ++ "/".
Proof.
  induction d as [|c r IH]; intros H; [discriminate|].
  destruct r as [|c' r].
  - exists "". cbn in H. apply Ascii.eqb_eq in H. subst c. reflexivity.
  - destruct (IH H) as [d' E]. exists (String c d'). rewrite E. reflexivity.
Qed.

Lemma join2_pyxc (x : string) :
  x <> "" -> endswith_slash x = false -> join2 x "pyxc" = x ++ "/pyxc".
Proof.
  intros Hx He. destruct x as [|c r]; [congruence|].
  unfold join2. rewrite He. reflexivity.
Qed.

Lemma join_build_pyxc (d : string) :
  startswith_slash d = true ->
  startswith_slash (join d ["build"; "pyxc"]) = true /\
  exists d', join d ["build"; "pyxc"] = d' ++ "/build/pyxc".
Proof.
  intros Hd. destruct d as [|c r]; [discriminate|].
  change (join (String c r) ["build"; "pyxc"])
    with (join2 (join2 (String c r) "build") "pyxc").
  assert (H1 : join2 (String c r) "build"
               = if endswith_slash (String c r) then String c r ++ "build"
                 else String c r ++ "/build") by reflexivity.
  rewrite H1. destruct (endswith_slash (String c r)) eqn:E.
  - rewrite join2_pyxc by (discriminate || (rewrite endswith_slash_app by discriminate;
      reflexivity)).
    split; [exact Hd|].
    destruct (endswith_slash_last _ E) as [d' ->]. exists d'.
    rewrite !str_append_assoc. reflexivity.
  - rewrite join2_pyxc by (discriminate || (rewrite endswith_slash_app by discriminate;
      reflexivity)).
    split; [exact Hd|]. exists (String c r).
    rewrite !str_append_assoc. reflexivity.
Qed.

End AbsolutePaths.

(** *** The LCG state never reaches zero *)

Lemma lcg_x_after_nonzero (k : nat) : lcg_x_after 1234567 (Z.of_nat k) <> 0.
Proof.
  unfold lcg_x_after. intros H.
  apply Z.mod_divide in H; [|unfold Lcg.MODV; lia].
  assert (Hr : Z.coprime Lcg.MODV (1234567 * 48271 ^ Z.of_nat k)).
  { apply Z.coprime_mul_r; [|apply Z.coprime_pow_r; [lia|]];
      unfold Z.coprime; vm_compute; reflexivity. }
  apply Z.divide_gcd_iff in H; [|unfold Lcg.MODV; lia].
  unfold Z.coprime in Hr. rewrite H in Hr. unfold Lcg.MODV in Hr. discriminate.
Qed.

(** ** Extra theorems *)

(** X1 ([loopsum]): for all integers [n] and [m], negative ones included,
    [loopsum(n, m)] is [T(max(0, n)) * T(max(0, m))] with [T(k) = k(k+1)/2];
    a non-positive bound gives an empty [range] and the result [0]. *)
Theorem loopsum_all_ints (n m : Z) :
  LoopSum.loopsum n m = tri (Z.max 0 n) * tri (Z.max 0 m).
Proof.
  transitivity (LoopSum.loopsum (Z.max 0 n) (Z.max 0 m)).
  - unfold LoopSum.loopsum. rewrite <- !range_1_max. reflexivity.
  - apply loopsum_closed; lia.
Qed.

(** X2 ([fib]): for every integer [n] (zero and negatives included),
    [fib(n) >= 1] and [fib(n) <= fib(n + 1)]. *)
Theorem fib_pos_nondecreasing (n : Z) : 1 <= Fib.fib n <= Fib.fib (n + 1).
Proof.
  unfold Fib.fib. destruct (Z_lt_le_dec n 0) as [Hn|Hn].
  - replace (Z.to_nat (n + 1)) with (Z.to_nat n) by lia.
    replace (Z.to_nat n) with 0%nat by lia. cbn. lia.
  - replace (Z.to_nat (n + 1)) with (S (Z.to_nat n)) by lia.
    apply fib_nat_props.
Qed.

(** X3 ([divisible]): for a divisor [d >= 1], [divisible(n, d)] returns, and
    it returns [True] exactly when [n >= 1] and [d] divides [n]; in
    particular [divisible(0, d)] and [divisible(n, d)] for negative [n] are
    [False]. *)
Theorem divisible_value (n d : Z) (Hd : 1 <= d) :
  (exists f, Primes.divisible f n d = Some ((0 <? n) && (n mod d =? 0))) /\
  (forall f b, Primes.divisible f n d = Some b -> b = (0 <? n) && (n mod d =? 0)).
Proof.
  assert (Hv : forall f b, Primes.divisible f n d = Some b ->
                           b = (0 <? n) && (n mod d =? 0)).
  { intros f b H. destruct (Z.ltb_spec 0 n).
    - apply divisible_spec in H; [exact H|lia|lia].
    - destruct f as [|f]; cbn in H; [discriminate|].
      destruct (Z.ltb_spec n d); [|lia]. injection H as <-. reflexivity. }
  split; [|exact Hv].
  destruct (divisible_terminates (S (Z.to_nat n)) n d Hd ltac:(lia)) as [b E].
  exists (S (Z.to_nat n)). rewrite E. f_equal. exact (Hv _ _ E).
Qed.

(** X4 ([divisible]): with a divisor [d <= 0] and [n > d], [divisible(n, d)]
    never returns: its argument never decreases, so every recursion budget
    is exhausted ([RecursionError]). *)
Theorem divisible_nonpos_diverges (n d : Z) (Hd : d <= 0) (Hn : d < n) :
  forall f, Primes.divisible f n d = None.
Proof.
  intros f. revert n Hn. induction f as [|f IH]; intros n Hn; cbn; [reflexivity|].
  destruct (Z.ltb_spec n d); [lia|]. destruct (Z.ltb_spec n (d + 1)); [lia|].
  apply IH; lia.
Qed.

(** X5 ([is_prime_from]): for every start divisor [d >= 1] and every [n],
    when [is_prime_from(n, d)] returns [b], [b] is [True] exactly when no
    [k >= d] with [k * k <= n] divides [n]. *)
Theorem is_prime_from_characterization (f : nat) (n d : Z) (b : bool)
  (Hd : 1 <= d) (H : Primes.is_prime_from f n d = Some b) :
  b = true <-> (forall k, d <= k -> k * k <= n -> ~ (k | n)).
Proof.
  revert d b Hd H. induction f as [|f IH]; intros d b Hd H; cbn in H; [discriminate|].
  destruct (Z.ltb_spec n (d * d)) as [Hsq|Hsq].
  - injection H as <-. split; [|reflexivity]. intros _ k Hk Hkk. nia.
  - destruct (Primes.divisible f n d) as [[|]|] eqn:E; try discriminate.
    + injection H as <-. apply divisible_spec in E; [|lia|nia].
      symmetry in E; apply Z.eqb_eq in E.
      split; [discriminate|]. intros Hall. exfalso.
      apply (Hall d); [lia|lia|]. apply Z.mod_divide; lia.
    + apply divisible_spec in E; [|lia|nia].
      rewrite (IH (d + 1) b ltac:(lia) H). split.
      * intros Hall k Hk Hkk Hdiv. destruct (Z.eq_dec k d) as [->|Hne].
        -- apply Z.mod_divide in Hdiv; [|lia]. rewrite Hdiv in E. discriminate.
        -- apply (Hall k); [lia|exact Hkk|exact Hdiv].
      * intros Hall k Hk. apply Hall; lia.
Qed.

(** X6 ([lcg_hash.py] loop): from any state [0 <= x0, acc0 < MODV], after
    [k >= 0] iterations [x] is [x0 * 48271^k mod MODV], and [acc] equals
    [acc0] plus the sum over [i < k] of the [(i+1)]-th [x] plus [i], reduced
    once: reducing at every iteration changes nothing. *)
Theorem lcg_closed_form (x0 acc0 k : Z)
  (Hx : 0 <= x0 < Lcg.MODV) (Ha : 0 <= acc0 < Lcg.MODV) (Hk : 0 <= k) :
  fold_left Lcg.step (Py.range 0 k) (x0, acc0)
  = (lcg_x_after x0 k, (acc0 + lcg_acc_sum x0 k) mod Lcg.MODV).
Proof.
  rewrite <- (Z2Nat.id k Hk). apply lcg_closed_nat; assumption.
Qed.

(** X7 ([particles_heavy.py] step loop): after [s >= 0] full steps from the
    initial particles, every particle [i] of [range(N)] still has id [i] and
    velocity [(1 + i, 2 - i)], its position is [(i + s(1 + i), 2i + s(2 - i))],
    and [bins[k]] is [i + k] plus the sum of [i + t] over the steps [t < s]
    with [t % 4 = k]; in particular no step raises [IndexError]. *)
Theorem particles_state_after_steps (s : Z) (Hs : 0 <= s) :
  fold_left Particles.outer (Py.range 0 s) (Some Particles.initial)
  = Some (map (particle_after s) (Py.range 0 Particles.N)).
Proof.
  pose proof (simulate_closed_nat (Z.to_nat s)) as H.
  rewrite Z2Nat.id in H by exact Hs. exact H.
Qed.

(** X8 ([particles_heavy.py] checksum loop): for every list of [N]
    particles with four bins each, reducing the checksum modulo [MODV] at
    every iteration gives the total of [pos.x + pos.y + bins[0..3]] over all
    particles, reduced once. *)
Theorem checksum_reduced_once (ps : list Particles.Particle) (H : well_shaped ps) :
  Particles.checksum_of ps = Some (particles_sum ps mod Particles.MODV).
Proof. exact (checksum_once ps H). Qed.

(** X9 ([particles_heavy.py] main): the computed checksum is the total, over
    the particles in their closed-form state after [STEPS] steps, of
    [pos.x + pos.y + bins[0..3]], reduced once modulo [MODV]. *)
Theorem particles_result_closed_form :
  Particles.result
  = Some (particles_sum (map (particle_after Particles.STEPS) (Py.range 0 Particles.N))
          mod Particles.MODV).
Proof.
  change Particles.result with (obind Particles.simulate Particles.checksum_of).
  change Particles.simulate
    with (fold_left Particles.outer (Py.range 0 Particles.STEPS) (Some Particles.initial)).
  pose proof (simulate_closed_nat (Z.to_nat Particles.STEPS)) as H.
  rewrite Z2Nat.id in H by (unfold Particles.STEPS; lia).
  rewrite H, obind_some. apply checksum_once, particle_after_shaped.
Qed.

(** X10 ([lit.cfg.py]): whatever the path of the configuration file
    (absolute, relative or empty) and whatever substitutions lit already
    holds, loading the configuration in an absolute working directory keeps
    those substitutions and appends one ["%pyxc"] entry whose path is
    absolute and ends in ["/build/pyxc"]. *)
Theorem lit_pyxc_path_absolute (cwd file : string) (config : LitCfg.config)
  (Hcwd : PosixPath.startswith_slash cwd = true) :
  exists p,
    LitCfg.substitutions (LitCfg.load cwd file config)
    = (LitCfg.substitutions config ++ [("%pyxc"%string, p)])%list /\
    PosixPath.startswith_slash p = true /\
    exists d, p = (d ++ "/build/pyxc")%string.
Proof.
  eexists; split; [reflexivity|].
  apply join_build_pyxc, abspath_abs, Hcwd.
Qed.

(** X11 ([lcg_hash.py] loop): from the program's start state
    [(1234567, 0)], after any number of iterations the state [x] lies in
    [[1, MODV)]: it never becomes [0], because [1234567] and the multiplier
    [48271] are both coprime to [MODV]. *)
Theorem lcg_x_never_zero (k : Z) :
  1 <= fst (fold_left Lcg.step (Py.range 0 k) (1234567, 0)) < Lcg.MODV.
Proof.
  destruct (Z_lt_le_dec k 0) as [Hk|Hk].
  - unfold Py.range. replace (Z.to_nat (k - 0)) with 0%nat by lia.
    cbn. unfold Lcg.MODV. lia.
  - rewrite <- (Z2Nat.id k Hk), lcg_closed_nat by (unfold Lcg.MODV; lia). cbn [fst].
    pose proof (lcg_x_after_nonzero (Z.to_nat k)).
    assert (0 <= lcg_x_after 1234567 (Z.of_nat (Z.to_nat k)) < Lcg.MODV)
      by (apply Z.mod_pos_bound; unfold Lcg.MODV; lia).
    lia.
Qed.

(** ** Witnesses of the extra theorems *)

Lemma divisible_value_witness :
  1 <= 3 /\ (forall f b, Primes.divisible f 0 3 = Some b -> b = false).
Proof.
  split; [lia|]. intros f b H.
  exact (proj2 (divisible_value 0 3 ltac:(lia)) f b H).
Defined.

Lemma divisible_nonpos_diverges_witness :
  0 <= 0 /\ 0 < 5 /\ Primes.divisible 1000 5 0 = None.
Proof.
  split; [lia|split; [lia|]].
  exact (divisible_nonpos_diverges 5 0 ltac:(lia) ltac:(lia) 1000).
Defined.

Lemma is_prime_from_characterization_witness :
  1 <= 2 /\ Primes.is_prime_from 100 91 2 = Some false /\
  (false = true <-> (forall k, 2 <= k -> k * k <= 91 -> ~ (k | 91))).
Proof.
  assert (H : Primes.is_prime_from 100 91 2 = Some false) by (vm_compute; reflexivity).
  split; [lia|split; [exact H|]].
  exact (is_prime_from_characterization 100 91 2 false ltac:(lia) H).
Defined.

Lemma lcg_closed_form_witness :
  0 <= 1234567 < Lcg.MODV /\ 0 <= 0 < Lcg.MODV /\ 0 <= 3 /\
  fold_left Lcg.step (Py.range 0 3) (1234567, 0)
  = (lcg_x_after 1234567 3, (0 + lcg_acc_sum 1234567 3) mod Lcg.MODV).
Proof.
  assert (Hx : 0 <= 1234567 < Lcg.MODV) by (unfold Lcg.MODV; lia).
  assert (Ha : 0 <= 0 < Lcg.MODV) by (unfold Lcg.MODV; lia).
  split; [exact Hx|split; [exact Ha|split; [lia|]]].
  exact (lcg_closed_form 1234567 0 3 Hx Ha ltac:(lia)).
Defined.

Lemma particles_state_after_steps_witness :
  0 <= 1 /\
  fold_left Particles.outer (Py.range 0 1) (Some Particles.initial)
  = Some (map (particle_after 1) (Py.range 0 Particles.N)).
Proof. split; [lia|]. exact (particles_state_after_steps 1 ltac:(lia)). Defined.

Lemma checksum_reduced_once_witness :
  well_shaped Particles.initial /\
  Particles.checksum_of Particles.initial
  = Some (particles_sum Particles.initial mod Particles.MODV).
Proof.
  split; [exact initial_well_shaped|].
  exact (checksum_reduced_once Particles.initial initial_well_shaped).
Defined.

Lemma lit_pyxc_path_absolute_witness :
  PosixPath.startswith_slash "/home/user"%string = true /\
  exists p,
    LitCfg.substitutions (LitCfg.load "/home/user" "lit.cfg.py" LitCfg.lit_default)
    = (LitCfg.substitutions LitCfg.lit_default ++ [("%pyxc"%string, p)])%list /\
    PosixPath.startswith_slash p = true /\
    exists d, p = (d ++ "/build/pyxc")%string.
Proof.
  split; [reflexivity|].
  exact (lit_pyxc_path_absolute "/home/user" "lit.cfg.py" LitCfg.lit_default
           ltac:(reflexivity)).
Defined.
